(** * Disaster Response Pipeline: the preprocessing script

    A shallow embedding of [src/data/process_data.py] and the properties of
    its three stages: [load_data] (read two CSV files and inner-join them on
    [id]), [clean_data] (expand the packed [categories] column into integer
    columns, then drop duplicate rows) and [save_data] (write the table to a
    SQLite store as the table [messages]).

    Python objects are mutable and passed by reference, so DataFrames live in
    a heap and the stages are computations in a state-and-exception monad over
    that heap, the log stream and the files of the working directory. *)

From Stdlib Require Import ZArith List String Ascii Bool Lia Sorted.
From stdpp Require Import base option list strings gmap.

Local Open Scope Z_scope.
Local Open Scope string_scope.
Local Open Scope list_scope.

(** ** Exceptions and results *)

(** The Python exception classes the script can raise. [OSError] stands for
    the file-access failures of [read_csv], [ParserError] for its parse
    failures, [ArgumentError] is SQLAlchemy's (for a URL it cannot use and,
    as [DuplicateColumnError], for a table with a repeated column),
    [OperationalError] is the one SQLite's refusals come as. *)
Inductive exn : Type :=
| AttributeError
| IndexError
| KeyError
| ValueError
| OverflowError
| ZeroDivisionError
| MergeError
| ArgumentError
| OperationalError
| OSError
| ParserError.

#[global] Instance exn_eq_dec : EqDecision exn.
Proof. solve_decision. Defined.

Inductive result (A : Type) : Type :=
| Ok (a : A)
| Raise (e : exn).
Arguments Ok {A} a.
Arguments Raise {A} e.

#[global] Instance result_ret : MRet result := fun A a => Ok a.
#[global] Instance result_bind : MBind result := fun A B f r =>
  match r with
  | Ok a => f a
  | Raise e => Raise e
  end.

(** [mapM f l] applies [f] from left to right and stops at the first
    exception, as a Python loop or comprehension does. *)
Fixpoint mapM {A B : Type} (f : A -> result B) (l : list A) : result (list B) :=
  match l with
  | [] => Ok []
  | x :: l' =>
      match f x with
      | Raise e => Raise e
      | Ok y =>
          match mapM f l' with
          | Raise e => Raise e
          | Ok ys => Ok (y :: ys)
          end
      end
  end.

(** ** Python strings *)

Module Py.

(** [s.split(sep)] for a one-character separator: every occurrence splits,
    and the result always has at least one piece. *)
Fixpoint split (sep : ascii) (s : string) : list string :=
  match s with
  | EmptyString => [EmptyString]
  | String c s' =>
      if Ascii.eqb c sep then EmptyString :: split sep s'
      else match split sep s' with
           | [] => [String c EmptyString]
           | p :: ps => String c p :: ps
           end
  end.

(** Whitespace that [int()] strips from an ASCII text: TAB, LF, VT, FF, CR
    and the space. *)
Definition is_space (c : ascii) : bool :=
  let n := nat_of_ascii c in
  ((9 <=? n) && (n <=? 13) || (n =? 32))%nat.

Definition digit_val (c : ascii) : option Z :=
  let n := nat_of_ascii c in
  if ((48 <=? n) && (n <=? 57))%nat then Some (Z.of_nat (n - 48)) else None.

Fixpoint lstrip (l : list ascii) : list ascii :=
  match l with
  | c :: l' => if is_space c then lstrip l' else l
  | [] => []
  end.

Definition strip (l : list ascii) : list ascii :=
  rev (lstrip (rev (lstrip l))).

(** Decimal digits, where single underscores may separate digits.
    [prev] tells whether the previous character was a digit. *)
Fixpoint digits (acc : Z) (prev : bool) (l : list ascii) : option Z :=
  match l with
  | [] => if prev then Some acc else None
  | c :: l' =>
      match digit_val c with
      | Some d => digits (10 * acc + d) true l'
      | None =>
          if Ascii.eqb c "_"%char && prev then digits acc false l' else None
      end
  end.

(** The number of digit characters of a text. *)
Fixpoint digit_count (l : list ascii) : Z :=
  match l with
  | [] => 0
  | c :: l' =>
      match digit_val c with
      | Some _ => 1 + digit_count l'
      | None => digit_count l'
      end
  end.

(** [sys.int_info.default_max_str_digits]: [int()] refuses a text with more
    digits, leading zeros counted. *)
Definition max_str_digits : Z := 4300.

(** The digits after the sign. *)
Definition number (l : list ascii) : option Z :=
  if (max_str_digits <? digit_count l)%Z then None else digits 0 false l.

(** [int(s)] on a [str], base 10: surrounding whitespace is ignored, one
    sign is allowed, then digits. [None] is Python's [ValueError].
    Strings are sequences of 8-bit characters here; the non-ASCII digits
    and spaces that Python also accepts are outside the model. *)
Definition int (s : string) : option Z :=
  match strip (list_ascii_of_string s) with
  | "+"%char :: l => number l
  | "-"%char :: l => Z.opp <$> number l
  | l => number l
  end.

End Py.

(** ** pathlib *)

(** A [pathlib.Path] after parsing: the anchor ([""] for a relative path,
    ["/"] for an absolute one) and the remaining components. *)
Record Path : Type := mkPath { root : string; tail : list string }.

(** [Path.name]: the final component, [""] when there is none. *)
Definition name (p : Path) : string := List.last (tail p) "".

Fixpoint join (sep : string) (l : list string) : string :=
  match l with
  | [] => ""
  | [x] => x
  | x :: l' => x ++ sep ++ join sep l'
  end.

(** [str(path)]. *)
Definition path_str (p : Path) : string :=
  match root p, tail p with
  | "", [] => "."
  | r, t => r ++ join "/" t
  end.

(** ** pandas tables *)

(** A cell: an integer, a string, or a missing value ([NaN] or [None]).
    Floating-point cells other than [NaN] are outside the model. *)
Inductive value : Type :=
| VInt (z : Z)
| VStr (s : string)
| VNaN.

#[global] Instance value_eq_dec : EqDecision value.
Proof. solve_decision. Defined.

(** A [DataFrame]: column labels, row labels (the index) and the rows.
    Column dtypes are the ones [read_csv] infers from the cells: [object]
    for a column with a string or without rows, numeric otherwise. *)
Record DataFrame : Type := mkDF {
  columns : list string;
  index : list Z;
  data : list (list value)
}.

(** Every row has one cell per column and one label. *)
Definition wf (df : DataFrame) : Prop :=
  length (index df) = length (data df) /\
  Forall (fun r => length r = length (columns df)) (data df).

Definition is_str (v : value) : bool :=
  match v with VStr _ => true | _ => false end.

(** [RangeIndex(n)]. *)
Definition range_index (n : nat) : list Z := map Z.of_nat (seq 0 n).

(** Positions of the columns that carry a label. *)
Fixpoint positions_from (i : nat) (c : string) (cols : list string) : list nat :=
  match cols with
  | [] => []
  | c' :: cols' =>
      if String.eqb c' c then i :: positions_from (S i) c cols'
      else positions_from (S i) c cols'
  end.

Definition positions (c : string) (cols : list string) : list nat :=
  positions_from 0 c cols.

(** The cell of a row at a position. *)
Definition cell (j : nat) (r : list value) : value := nth j r VNaN.

(** The values of the column at a position. *)
Definition column (j : nat) (rows : list (list value)) : list value :=
  map (cell j) rows.

(** Remove the element at a position. *)
Fixpoint remove_at {A : Type} (j : nat) (l : list A) : list A :=
  match l, j with
  | [], _ => []
  | _ :: l', O => l'
  | x :: l', S j' => x :: remove_at j' l'
  end.

(** [duplicated(keep='first')]: marks each element equal to an earlier one.
    Missing values compare equal to each other, as in pandas. *)
Fixpoint duplicated_from {A : Type} `{EqDecision A} (seen l : list A) : list bool :=
  match l with
  | [] => []
  | x :: l' => bool_decide (x ∈ seen) :: duplicated_from (x :: seen) l'
  end.

Definition duplicated {A : Type} `{EqDecision A} (l : list A) : list bool :=
  duplicated_from [] l.

(** Boolean-mask selection: keep the elements whose mask entry is [true]. *)
Fixpoint select {A : Type} (mask : list bool) (l : list A) : list A :=
  match mask, l with
  | b :: mask', x :: l' => if b then x :: select mask' l' else select mask' l'
  | _, _ => []
  end.

(** *** merge *)

(** The position of the join key: [KeyError] when no column carries the
    label, [ValueError] when several do. *)
Definition key_position (key : string) (cols : list string) : result nat :=
  match positions key cols with
  | [] => Raise KeyError
  | [j] => Ok j
  | _ => Raise ValueError
  end.

(** Key columns of [object] dtype do not merge with numeric ones, unless
    one side has no rows. *)
Definition keys_compatible (lk rk : list value) : bool :=
  match lk, rk with
  | [], _ | _, [] => true
  | _, _ => Bool.eqb (existsb is_str lk) (existsb is_str rk)
  end.

(** The rows of the inner join: for each left row in order, the right rows
    with an equal key in order, the right key cell dropped. *)
Definition inner_join (lj rj : nat) (lrows rrows : list (list value))
  : list (list value) :=
  flat_map (fun lr =>
    map (fun rr => lr ++ remove_at rj rr)
        (filter (fun rr => cell rj rr = cell lj lr) rrows))
    lrows.

(** Labels present on both sides get a suffix. *)
Definition add_suffix (overlap : list string) (suffix : string) (c : string)
  : string :=
  if bool_decide (c ∈ overlap) then c ++ suffix else c.

(** Labels that the suffixes made collide ([labels] after renaming,
    [orig] before). *)
Definition suffix_dups (labels orig : list string) : list string :=
  select (zip_with (fun a b => a && negb b) (duplicated labels) (duplicated orig))
         labels.

(** [left.merge(right, on=[key])] with the defaults [how='inner'] and
    [suffixes=('_x', '_y')]. *)
Definition merge (left right : DataFrame) (key : string) : result DataFrame :=
  rj ← key_position key (columns right);
  lj ← key_position key (columns left);
  if negb (keys_compatible (column lj (data left)) (column rj (data right)))
  then Raise ValueError
  else
    let rcols := remove_at rj (columns right) in
    let overlap := filter (fun c => c ∈ rcols) (columns left) in
    let llabels := map (add_suffix overlap "_x") (columns left) in
    let rlabels := map (add_suffix overlap "_y") rcols in
    match suffix_dups llabels (columns left) ++ suffix_dups rlabels rcols with
    | _ :: _ => Raise MergeError
    | [] =>
        let rows := inner_join lj rj (data left) (data right) in
        Ok {| columns := llabels ++ rlabels;
              index := range_index (length rows);
              data := rows |}
    end.

(** ** The world: heap, log stream and database files *)

(** A reference to a DataFrame object: its position in the heap. *)
Definition loc : Type := nat.

(** What [logger.info] receives. The percentage is kept as the two counts
    it is computed from. *)
Inductive log_entry : Type :=
| LogLoading (messages categories : string)
| LogCleaning
| LogPercentage (num_duplicated num_all : nat)
| LogRemoving
| LogNumber (n : nat)
| LogSaving (database : string)
| LogSaved.

(** A table of a SQLite database. *)
Record Table : Type := mkTable {
  tcolumns : list string;
  trows : list (list value)
}.

Record world : Type := mkWorld {
  heap : list DataFrame;
  log : list log_entry;
  files : gmap string (gmap string Table)
}.

(** Computations that read and write the world and may raise. An exception
    keeps the writes made before it. *)
Definition M (A : Type) : Type := world -> result A * world.

Definition ret {A : Type} (a : A) : M A := fun w => (Ok a, w).

Definition raise {A : Type} (e : exn) : M A := fun w => (Raise e, w).

Definition bind {A B : Type} (m : M A) (k : A -> M B) : M B := fun w =>
  match m w with
  | (Ok a, w') => k a w'
  | (Raise e, w') => (Raise e, w')
  end.

Definition lift {A : Type} (r : result A) : M A := fun w => (r, w).

Declare Scope world_scope.
Delimit Scope world_scope with world.
Notation "x <- m ;; k" := (bind m (fun x => k))
  (at level 100, m at next level, right associativity) : world_scope.
Notation "m ;; k" := (bind m (fun _ => k))
  (at level 100, right associativity) : world_scope.

(** A new object; the reference to it is returned. *)
Definition alloc (df : DataFrame) : M loc := fun w =>
  (Ok (length (heap w)),
   {| heap := heap w ++ [df]; log := log w; files := files w |}).

(** The object behind a reference. References are never dangling in Python;
    [KeyError] stands for a reference outside the heap. *)
Definition deref (l : loc) : M DataFrame := fun w =>
  match heap w !! l with
  | Some df => (Ok df, w)
  | None => (Raise KeyError, w)
  end.

(** In-place update of the object behind a reference. *)
Definition store (l : loc) (df : DataFrame) : M unit := fun w =>
  (Ok tt, {| heap := <[l := df]> (heap w); log := log w; files := files w |}).

Definition logger_info (e : log_entry) : M unit := fun w =>
  (Ok tt, {| heap := heap w; log := log w ++ [e]; files := files w |}).

(** ** load_data *)

Section Loader.

(** [pd.read_csv]: the table parsed from the file at a path, or the
    file-access or parse failure. *)
Variable read_csv : Path -> result DataFrame.

Definition load_data (messages_filepath categories_filepath : Path) : M loc :=
  (messages_df <- lift (read_csv messages_filepath) ;;
   categories_df <- lift (read_csv categories_filepath) ;;
   data_df <- lift (merge messages_df categories_df "id") ;;
   alloc data_df)%world.

End Loader.

(** ** clean_data *)

(** [Series.str]: the accessor exists only for a column of [object] dtype. *)
Definition str_accessor (s : list value) : result (list value) :=
  match s with
  | [] => Ok s
  | _ => if existsb is_str s then Ok s else Raise AttributeError
  end.

(** [Series.str.split(sep)] on one cell: the pieces of a string; a cell that
    is not a string gives a missing value. *)
Definition str_split (sep : ascii) (v : value) : option (list string) :=
  match v with
  | VStr s => Some (Py.split sep s)
  | _ => None
  end.

(** The cell of expanded column [k] for one split cell: the [k]-th piece,
    missing when the cell has fewer pieces or was missing itself. *)
Definition piece (k : nat) (c : option (list string)) : value :=
  match c with
  | Some segs =>
      match segs !! k with
      | Some s => VStr s
      | None => VNaN
      end
  | None => VNaN
  end.

(** [expand=True]: one column per position, as many as the longest split.
    The expanded frame is held column by column, the way [DataFrame.map]
    and [astype] traverse it. *)
Definition expand (cells : list (option (list string))) : list (list value) :=
  let n := max_list (map (fun c => from_option length 0%nat c) cells) in
  map (fun k => map (piece k) cells) (seq 0 n).

(** [lambda column: column.split('-')[0]]. *)
Definition name_of (v : value) : result string :=
  match v with
  | VStr s => Ok (hd "" (Py.split "-" s))
  | _ => Raise AttributeError
  end.

(** [lambda row: row.split('-')[1]]. *)
Definition value_of (v : value) : result value :=
  match v with
  | VStr s =>
      match Py.split "-" s !! 1%nat with
      | Some x => Ok (VStr x)
      | None => Raise IndexError
      end
  | _ => Raise AttributeError
  end.

(** [astype(int)] on one cell of an [object] column: [int()], then the
    conversion to a 64-bit integer. *)
Definition astype_int (v : value) : result value :=
  match v with
  | VStr s =>
      match Py.int s with
      | None => Raise ValueError
      | Some z =>
          if ((- 2 ^ 63 <=? z) && (z <? 2 ^ 63))%Z then Ok (VInt z)
          else Raise OverflowError
      end
  | VInt z => Ok (VInt z)
  | VNaN => Raise ValueError
  end.

(** [DataFrame.drop(columns=[c])]: every column with the label goes. *)
Definition drop_cells {A : Type} (c : string) (cols : list string) (r : list A)
  : list A :=
  select (map (fun c' => negb (String.eqb c' c)) cols) r.

Definition drop_column (c : string) (df : DataFrame) : DataFrame :=
  {| columns := drop_cells c (columns df) (columns df);
     index := index df;
     data := map (drop_cells c (columns df)) (data df) |}.

(** [pd.concat([df, other], axis=1)] where [other] (held by columns) has
    the index of [df]: row [i] gets the [i]-th cell of each new column. *)
Definition concat_axis1 (df : DataFrame) (labels : list string)
    (series : list (list value)) : DataFrame :=
  {| columns := columns df ++ labels;
     index := index df;
     data := imap (fun i r => r ++ map (cell i) series) (data df) |}.

(** [DataFrame.drop_duplicates(keep='first')]: rows equal to an earlier row
    go, with their labels. *)
Definition drop_duplicates (df : DataFrame) : DataFrame :=
  let keep := map negb (duplicated (data df)) in
  {| columns := columns df;
     index := select keep (index df);
     data := select keep (data df) |}.

Definition count_true (l : list bool) : nat := length (filter Is_true l).

Definition clean_data (data_df : loc) : M loc :=
  (df <- deref data_df ;;
   (* data_df.categories.str.split(';', expand=True) *)
   categories <- lift (match positions "categories" (columns df) with
                       | [j] => str_accessor (column j (data df))
                       | _ => Raise AttributeError
                       end) ;;
   let expanded_categories_df := expand (map (str_split ";") categories) in
   (* expanded_categories_df.iloc[0] *)
   expanded_categories_first_row <-
     lift (match categories with
           | [] => Raise IndexError
           | _ => Ok (map (cell 0) expanded_categories_df)
           end) ;;
   expanded_columns <- lift (mapM name_of expanded_categories_first_row) ;;
   (* .map(lambda row: row.split('-')[1]).astype(int) *)
   mapped <- lift (mapM (mapM value_of) expanded_categories_df) ;;
   expanded_categories_df <- lift (mapM (mapM astype_int) mapped) ;;
   (* data_df.drop(columns=['categories'], inplace=True) *)
   let dropped := drop_column "categories" df in
   store data_df dropped ;;
   (* data_df = pd.concat([data_df, expanded_categories_df], axis=1) *)
   data_df <- alloc (concat_axis1 dropped expanded_columns expanded_categories_df) ;;
   new <- deref data_df ;;
   let num_duplicated_messages := count_true (duplicated (data new)) in
   let num_all_messages := length (data new) in
   (match num_all_messages with
    | O => raise ZeroDivisionError
    | _ => logger_info (LogPercentage num_duplicated_messages num_all_messages)
    end) ;;
   logger_info LogRemoving ;;
   (* data_df.drop_duplicates(keep='first', inplace=True) *)
   store data_df (drop_duplicates new) ;;
   logger_info (LogNumber (length (data (drop_duplicates new)))) ;;
   ret data_df)%world.

(** ** save_data *)

(** Where a SQLAlchemy engine connects: a database file, or SQLite's
    transient in-memory database. *)
Inductive Engine : Type :=
| InMemory
| File (path : string).

Fixpoint strip_prefix (p s : string) : option string :=
  match p, s with
  | EmptyString, _ => Some s
  | String a p', String b s' => if Ascii.eqb a b then strip_prefix p' s' else None
  | String _ _, EmptyString => None
  end.

(** [create_engine(url)] for a SQLite URL [sqlite:///<database>]: the text
    after the third slash is the file to open, relative to the working
    directory unless it starts with a slash; an empty one and [:memory:]
    select the in-memory database. The text is taken as it stands: what a
    [?] or a [%] in it means depends on the SQLAlchemy version and is
    outside the model. *)
Definition create_engine (url : string) : result Engine :=
  match strip_prefix "sqlite:///" url with
  | Some database =>
      if String.eqb database "" || String.eqb database ":memory:"
      then Ok InMemory
      else Ok (File database)
  | None => Raise ArgumentError
  end.

(** The rows [to_sql] writes: with [index=True] the row labels come first,
    as a column of their own. *)
Definition table_of (index_flag : bool) (df : DataFrame) : Table :=
  if index_flag then
    {| tcolumns :=
         (if bool_decide ("index" ∈ columns df) then "level_0" else "index")
         :: columns df;
       trows := zip_with (fun i r => VInt i :: r) (index df) (data df) |}
  else {| tcolumns := columns df; trows := data df |}.

(** The 64-bit signed integers. *)
Definition int64 (z : Z) : bool := ((- 2 ^ 63 <=? z) && (z <? 2 ^ 63))%Z.

Definition is_int (v : value) : bool :=
  match v with VInt _ => true | _ => false end.

(** A column of dtype [uint64]: a column of integers from 0 to 2^64 - 1,
    one of them beyond the 64-bit signed ones. *)
Definition uint64_column (col : list value) : bool :=
  forallb (fun v => match v with
                    | VInt z => ((0 <=? z) && (z <? 2 ^ 64))%Z
                    | _ => false
                    end) col &&
  existsb (fun v => match v with VInt z => negb (int64 z) | _ => false end) col.

Definition has_uint64 (df : DataFrame) : bool :=
  existsb (fun j => uint64_column (column j (data df)))
          (seq 0 (length (columns df))).

(** ASCII lower case: SQLite compares the names of tables and of columns
    without regard to it. *)
Definition lower_char (c : ascii) : ascii :=
  let n := nat_of_ascii c in
  if ((65 <=? n) && (n <=? 90))%nat then ascii_of_nat (n + 32) else c.

Fixpoint lower (s : string) : string :=
  match s with
  | EmptyString => EmptyString
  | String c s' => String (lower_char c) (lower s')
  end.

(** What pandas and SQLAlchemy check when they build the table object:
    pandas refuses a [uint64] column, SQLAlchemy a repeated column. *)
Definition build_table (index_flag : bool) (df : DataFrame) : result unit :=
  if has_uint64 df then Raise ValueError
  else if bool_decide (NoDup (tcolumns (table_of index_flag df))) then Ok tt
  else Raise ArgumentError.

(** [CREATE TABLE]: the statement cannot be written for an empty column
    name, and SQLite refuses a table without columns, with two columns
    equal up to case, or with more than 2000 columns. *)
Definition create_table (t : Table) : result unit :=
  if bool_decide ("" ∈ tcolumns t) then Raise IndexError
  else if bool_decide (tcolumns t = [])
          || negb (bool_decide (NoDup (map lower (tcolumns t))))
          || (2000 <? Z.of_nat (length (tcolumns t)))%Z
  then Raise OperationalError
  else Ok tt.

(** [INSERT]: SQLite's integers are the 64-bit signed ones. *)
Definition insert_rows (t : Table) : result unit :=
  if forallb (forallb (fun v => match v with VInt z => int64 z | _ => true end))
             (trows t)
  then Ok tt
  else Raise OverflowError.

(** [to_sql] on an open database, with the default [if_exists='fail']: the
    table object is built, then an existing table of that name stops the
    call, then the table is created and the rows are inserted. The table is
    created on its own, before the transaction of the rows: an insertion
    that fails leaves it behind, empty. A database is keyed by the names of
    its tables in lower case. *)
Definition store_table (database : gmap string Table) (df : DataFrame)
    (table : string) (index_flag : bool) : result unit * gmap string Table :=
  match build_table index_flag df with
  | Raise e => (Raise e, database)
  | Ok _ =>
      match database !! lower table with
      | Some _ => (Raise ValueError, database)
      | None =>
          match create_table (table_of index_flag df) with
          | Raise e => (Raise e, database)
          | Ok _ =>
              match insert_rows (table_of index_flag df) with
              | Raise e =>
                  (Raise e,
                   <[lower table :=
                       {| tcolumns := tcolumns (table_of index_flag df);
                          trows := [] |}]> database)
              | Ok _ =>
                  (Ok tt, <[lower table := table_of index_flag df]> database)
              end
          end
      end
  end.

(** A name SQLite cannot open as a database file: the parent directory,
    and a name longer than a file name can be. (The working directory holds
    SQLite database files only, and a database holds tables only.) *)
Definition unopenable (path : string) : bool :=
  String.eqb path ".." || (255 <? String.length path)%nat.

(** [df.to_sql(name, con, index=...)]. Connecting comes first: it creates
    the database file when it is absent, so a call that fails afterwards
    leaves a new, empty database behind. The in-memory database is new at
    every connection and is gone afterwards. *)
Definition to_sql (df : DataFrame) (table : string) (con : Engine)
    (index_flag : bool) : M unit := fun w =>
  match con with
  | InMemory => (fst (store_table ∅ df table index_flag), w)
  | File path =>
      if unopenable path then (Raise OperationalError, w)
      else
        let database := default ∅ (files w !! path) in
        (fst (store_table database df table index_flag),
         {| heap := heap w; log := log w;
            files := <[path := snd (store_table database df table index_flag)]>
                       (files w) |})
  end.

Definition save_data (df : loc) (database_filename : Path) : M unit :=
  (table <- deref df ;;
   engine <- lift (create_engine ("sqlite:///" ++ name database_filename)) ;;
   to_sql table "messages" engine false)%world.

(** ** main *)

Section Orchestrator.

Variable read_csv : Path -> result DataFrame.

(** The three paths are the parsed command-line arguments. *)
Definition main (messages_filepath categories_filepath database_filepath : Path)
  : M unit :=
  (logger_info (LogLoading (path_str messages_filepath)
                           (path_str categories_filepath)) ;;
   data_df <- load_data read_csv messages_filepath categories_filepath ;;
   logger_info LogCleaning ;;
   cleaned_data_df <- clean_data data_df ;;
   logger_info (LogSaving (path_str database_filepath)) ;;
   save_data cleaned_data_df database_filepath ;;
   logger_info LogSaved)%world.

End Orchestrator.

(** ** Sample data *)

Definition w0 : world := {| heap := []; log := []; files := ∅ |}.

Definition sample_messages : DataFrame :=
  {| columns := ["id"; "message"];
     index := [0; 1];
     data := [[VInt 1; VStr "help"]; [VInt 2; VStr "ok"]] |}.

Definition sample_categories : DataFrame :=
  {| columns := ["id"; "categories"];
     index := [0; 1];
     data := [[VInt 1; VStr "related-1;offer-0"];
              [VInt 2; VStr "related-1;offer-0"]] |}.

(** A [read_csv] over a directory of parsed files; a missing file is a
    file-access failure. *)
Fixpoint csv_files (dir : list (string * DataFrame)) (p : Path)
  : result DataFrame :=
  match dir with
  | [] => Raise OSError
  | (f, df) :: dir' =>
      if String.eqb (path_str p) f then Ok df else csv_files dir' p
  end.

(** A categories file that knows only the first message. *)
Definition categories_one : DataFrame :=
  {| columns := ["id"; "categories"];
     index := [0];
     data := [[VInt 1; VStr "related-1;offer-0"]] |}.

(** Two inputs that share the column [genre] besides [id]. *)
Definition messages_genre : DataFrame :=
  {| columns := ["id"; "message"; "genre"];
     index := [0];
     data := [[VInt 1; VStr "help"; VStr "direct"]] |}.

Definition categories_genre : DataFrame :=
  {| columns := ["id"; "categories"; "genre"];
     index := [0];
     data := [[VInt 1; VStr "related-1;offer-0"; VStr "direct"]] |}.

(** Two inputs in which the id 1 occurs twice. *)
Definition messages_twice : DataFrame :=
  {| columns := ["id"; "message"];
     index := [0; 1];
     data := [[VInt 1; VStr "help"]; [VInt 1; VStr "help again"]] |}.

Definition categories_twice : DataFrame :=
  {| columns := ["id"; "categories"];
     index := [0; 1];
     data := [[VInt 1; VStr "related-1;offer-0"];
              [VInt 1; VStr "related-0;offer-1"]] |}.

Definition sample_csv : Path -> result DataFrame :=
  csv_files [("messages.csv", sample_messages);
             ("categories.csv", sample_categories);
             ("one.csv", categories_one);
             ("messages_genre.csv", messages_genre);
             ("categories_genre.csv", categories_genre);
             ("messages_twice.csv", messages_twice);
             ("categories_twice.csv", categories_twice)].

Definition rel (f : string) : Path := {| root := ""; tail := [f] |}.

(** The cleaned sample table. *)
Definition sample_cleaned : DataFrame :=
  {| columns := ["id"; "message"; "related"; "offer"];
     index := [0; 1];
     data := [[VInt 1; VStr "help"; VInt 1; VInt 0];
              [VInt 2; VStr "ok"; VInt 1; VInt 0]] |}.

(** A destination with a directory part: [Path('out/db.sqlite')]. *)
Definition nested_db : Path := {| root := ""; tail := ["out"; "db.sqlite"] |}.

(** A world whose heap holds the given tables and nothing else. *)
Definition world_of (tables : list DataFrame) : world :=
  {| heap := tables; log := []; files := ∅ |}.

(** The values of the [id] column. *)
Definition ids (df : DataFrame) : list value :=
  match positions "id" (columns df) with
  | [j] => column j (data df)
  | _ => []
  end.

(** ** The steps of clean_data, for the proofs *)

(** The part of [clean_data] before the caller's table is touched: the
    labels and the integer columns of the expanded categories.
    [clean_data_run] shows that [clean_data] computes exactly this. *)
Definition expand_categories (df : DataFrame)
  : result (list string * list (list value)) :=
  categories ← match positions "categories" (columns df) with
               | [j] => str_accessor (column j (data df))
               | _ => Raise AttributeError
               end;
  first_row ← match categories with
              | [] => Raise IndexError
              | _ => Ok (map (cell 0) (expand (map (str_split ";") categories)))
              end;
  labels ← mapM name_of first_row;
  mapped ← mapM (mapM value_of) (expand (map (str_split ";") categories));
  ints ← mapM (mapM astype_int) mapped;
  Ok (labels, ints).

(** The table [clean_data] builds before it drops the duplicates. *)
Definition expanded_table (df : DataFrame) (labels : list string)
    (ints : list (list value)) : DataFrame :=
  concat_axis1 (drop_column "categories" df) labels ints.

(** The conversion of one [name-value] segment: [split('-')[1]], then
    [astype(int)]. *)
Definition convert (segment : string) : result value :=
  value_of (VStr segment) ≫= astype_int.

(** The value of a result, for reading the cells of a successful
    conversion. *)
Definition unwrap (r : result value) : value :=
  match r with
  | Ok v => v
  | Raise _ => VNaN
  end.

(** [lambda column: column.split('-')[0]] on a segment. *)
Definition prefix_of (segment : string) : string := hd "" (Py.split "-" segment).

(** The sample tables joined on [id], as [load_data] returns them. *)
Definition sample_joined : DataFrame :=
  {| columns := ["id"; "message"; "categories"];
     index := [0; 1];
     data := [[VInt 1; VStr "help"; VStr "related-1;offer-0"];
              [VInt 2; VStr "ok"; VStr "related-1;offer-0"]] |}.

(** A joined table without rows. *)
Definition empty_joined : DataFrame :=
  {| columns := ["id"; "message"; "categories"]; index := []; data := [] |}.

(** The world after [clean_data] has run on the joined sample table. *)
Definition cleaned_world : world :=
  snd (clean_data 0%nat (world_of [sample_joined])).

(** Three rows: the second repeats the first; the third differs from the
    first only in the name written in its first segment. *)
Definition renamed_segment : DataFrame :=
  {| columns := ["id"; "message"; "categories"];
     index := [0; 1; 2];
     data := [[VInt 1; VStr "help"; VStr "related-1;offer-0"];
              [VInt 1; VStr "help"; VStr "related-1;offer-0"];
              [VInt 1; VStr "help"; VStr "request-1;offer-0"]] |}.

(** ** The words of the specification *)

Module Spec.

(** "The suffix (the part after [-])": the text after the first [-], when
    there is one. *)
Fixpoint suffix (s : string) : option string :=
  match s with
  | EmptyString => None
  | String c s' => if Ascii.eqb c "-"%char then Some s' else suffix s'
  end.

(** "Integer-parsable". *)
Definition integer_parsable (s : string) : Prop := is_Some (Py.int s).

End Spec.

(** One row whose only category holds a negative value. *)
Definition negative_value : DataFrame :=
  {| columns := ["id"; "message"; "categories"];
     index := [0];
     data := [[VInt 1; VStr "help"; VStr "related--1"]] |}.

(** Two rows, the second with one segment less and a value that is not a
    number. *)
Definition ragged : DataFrame :=
  {| columns := ["id"; "message"; "categories"];
     index := [0; 1];
     data := [[VInt 1; VStr "help"; VStr "related-1;offer-0"];
              [VInt 2; VStr "ok"; VStr "related-x"]] |}.

(** One row with the categories of the specification's example. *)
Definition related_request : DataFrame :=
  {| columns := ["id"; "message"; "categories"];
     index := [0];
     data := [[VInt 1; VStr "help"; VStr "related-1;request-0"]] |}.

(** ** More sample data *)

(** A messages file without the [id] column. *)
Definition messages_no_id : DataFrame :=
  {| columns := ["message"; "genre"];
     index := [0];
     data := [[VStr "help"; VStr "direct"]] |}.

(** A categories file about other messages. *)
Definition categories_strangers : DataFrame :=
  {| columns := ["id"; "categories"];
     index := [0; 1];
     data := [[VInt 7; VStr "related-1;offer-0"];
              [VInt 8; VStr "related-0;offer-0"]] |}.

Definition more_csv : Path -> result DataFrame :=
  csv_files [("messages.csv", sample_messages);
             ("categories.csv", sample_categories);
             ("no_id.csv", messages_no_id);
             ("strangers.csv", categories_strangers)].

(** Another destination with the file name of [nested_db]. *)
Definition other_dir_db : Path := {| root := "/"; tail := ["tmp"; "db.sqlite"] |}.

(** The current directory as a destination: [Path('.')]. *)
Definition here : Path := {| root := ""; tail := [] |}.

(** A messages file whose ids are texts. *)
Definition messages_text_ids : DataFrame :=
  {| columns := ["id"; "message"];
     index := [0];
     data := [[VStr "a1"; VStr "help"]] |}.

Definition text_csv : Path -> result DataFrame :=
  csv_files [("messages.csv", messages_text_ids);
             ("categories.csv", sample_categories)].

(** ** Destinations and tables that can be stored *)

(** A final path component that the URL carries as it stands, for every
    SQLAlchemy version: without [%] or [?]. *)
Definition literal_name (n : string) : bool :=
  forallb (fun c => negb (Ascii.eqb c "%"%char) && negb (Ascii.eqb c "?"%char))
          (list_ascii_of_string n).

(** A final path component that names a database file: literal, not empty,
    not [:memory:], one that can be opened, and without the character of
    code 0. *)
Definition file_name (n : string) : bool :=
  negb (String.eqb n "") && negb (String.eqb n ":memory:")
  && negb (unopenable n)
  && literal_name n
  && forallb (fun c => negb (Ascii.eqb c zero)) (list_ascii_of_string n).

(** Letters, digits and the underscore. *)
Definition plain_char (c : ascii) : bool :=
  let n := nat_of_ascii c in
  ((48 <=? n) && (n <=? 57) || (65 <=? n) && (n <=? 90)
   || (97 <=? n) && (n <=? 122) || (n =? 95))%nat.

Definition plain_label (s : string) : bool :=
  negb (String.eqb s "") && forallb plain_char (list_ascii_of_string s).

(** A column that does not mix integers and text. *)
Definition unmixed (col : list value) : bool :=
  forallb (fun v => negb (is_str v)) col || forallb (fun v => negb (is_int v)) col.

(** A table SQLite takes and gives back as it is: between 1 and 999
    columns, with plain names that differ even without regard to case,
    integer cells that fit 64 bits, and no column that mixes integers and
    text. *)
Definition storable (df : DataFrame) : bool :=
  match columns df with [] => false | _ => true end
  && (Z.of_nat (length (columns df)) <=? 999)%Z
  && forallb plain_label (columns df)
  && bool_decide (NoDup (map lower (columns df)))
  && forallb (forallb (fun v => match v with VInt z => int64 z | _ => true end))
             (data df)
  && forallb (fun j => unmixed (column j (data df)))
             (seq 0 (length (columns df))).


(** [str.isascii()]: every character is below 128. On such texts [Py.int]
    is the whole of [int()]. *)
Definition isascii (s : string) : bool :=
  forallb (fun c => (nat_of_ascii c <? 128)%nat) (list_ascii_of_string s).

(** The positions a Boolean mask keeps, in order. *)
Fixpoint kept (mask : list bool) : list nat :=
  match mask with
  | [] => []
  | b :: mask' => (if b then [0%nat] else []) ++ map S (kept mask')
  end.

(** * Properties *)

(** ** Running computations *)

Lemma bind_ok {A B : Type} (m : M A) (k : A -> M B) w a w' :
  m w = (Ok a, w') -> bind m k w = k a w'.
Proof. intros H. unfold bind. by rewrite H. Qed.

Lemma bind_raise {A B : Type} (m : M A) (k : A -> M B) w e w' :
  m w = (Raise e, w') -> bind m k w = (Raise e, w').
Proof. intros H. unfold bind. by rewrite H. Qed.

Lemma bind_lift {A B : Type} (r : result A) (k : A -> M B) w :
  bind (lift r) k w =
  match r with
  | Ok a => k a w
  | Raise e => (Raise e, w)
  end.
Proof. unfold bind, lift. by destruct r. Qed.

Lemma deref_some l w df : heap w !! l = Some df -> deref l w = (Ok df, w).
Proof. intros H. unfold deref. by rewrite H. Qed.

(** ** Strings and paths *)

Lemma split_nonempty sep s : Py.split sep s <> [].
Proof.
  destruct s as [|c s]; simpl; [done|].
  destruct (Ascii.eqb c sep); [done|].
  by destruct (Py.split sep s).
Qed.

Lemma strip_prefix_app p s : strip_prefix p (p ++ s) = Some s.
Proof.
  induction p as [|a p IH]; simpl; [done|].
  by rewrite Ascii.eqb_refl.
Qed.

(** ** Destinations and storable tables *)

Lemma file_name_spec n :
  file_name n = true ->
  n <> "" /\ n <> ":memory:" /\ unopenable n = false.
Proof.
  unfold file_name. rewrite !andb_true_iff, !negb_true_iff.
  intros [[[[H1 H2] H3] _] _]. split_and!; [| |done].
  - by apply String.eqb_neq.
  - by apply String.eqb_neq.
Qed.

(** The engine [save_data] builds connects to the file called like the
    final component of the path. *)
Lemma create_engine_name p :
  file_name (name p) = true ->
  create_engine ("sqlite:///" ++ name p) = Ok (File (name p)).
Proof.
  intros (H1 & H2 & _)%file_name_spec.
  unfold create_engine. rewrite strip_prefix_app.
  apply String.eqb_neq in H1, H2. by rewrite H1, H2.
Qed.

Lemma create_engine_memory p :
  name p = "" \/ name p = ":memory:" ->
  create_engine ("sqlite:///" ++ name p) = Ok InMemory.
Proof.
  intros H. unfold create_engine. rewrite strip_prefix_app.
  by destruct H as [-> | ->].
Qed.

Lemma create_engine_cases p :
  create_engine ("sqlite:///" ++ name p) = Ok InMemory \/
  create_engine ("sqlite:///" ++ name p) = Ok (File (name p)) /\
  name p <> "" /\ name p <> ":memory:".
Proof.
  unfold create_engine. rewrite strip_prefix_app.
  destruct (String.eqb (name p) "") eqn:H1; [by left|].
  destruct (String.eqb (name p) ":memory:") eqn:H2; [by left|].
  right. by apply String.eqb_neq in H1, H2.
Qed.

Lemma storable_cells df j :
  forallb (forallb (fun v => match v with VInt z => int64 z | _ => true end))
          (data df) = true ->
  uint64_column (column j (data df)) = false.
Proof.
  intros Hcells. unfold uint64_column. apply andb_false_iff. right.
  apply not_true_is_false. intros (v & Hv & Hbad)%existsb_exists.
  apply in_map_iff in Hv as (r & <- & Hr).
  pose proof (proj1 (forallb_forall _ _) Hcells r Hr) as Hrow.
  unfold cell in Hbad.
  destruct (nth_in_or_default j r VNaN) as [Hin|Hd]; [|by rewrite Hd in Hbad].
  pose proof (proj1 (forallb_forall _ _) Hrow _ Hin) as Hok.
  destruct (nth j r VNaN); try done. by rewrite Hok in Hbad.
Qed.

Lemma plain_labels_nonempty cols :
  forallb plain_label cols = true -> "" ∉ cols.
Proof.
  intros Hall Hin%list_elem_of_In.
  by pose proof (proj1 (forallb_forall _ _) Hall _ Hin).
Qed.

(** A storable table passes every check of [to_sql]. *)
Lemma storable_store database df :
  storable df = true ->
  database !! "messages" = None ->
  store_table database df "messages" false =
  (Ok tt,
   <["messages" := {| tcolumns := columns df; trows := data df |}]> database).
Proof.
  unfold storable. rewrite !andb_true_iff.
  intros [[[[[Hne Hmax] Hplain] Hnd] Hcells] _] Hfree.
  apply bool_decide_eq_true in Hnd.
  unfold store_table, build_table, create_table, insert_rows.
  change (lower "messages") with "messages". cbn [table_of tcolumns trows].
  assert (has_uint64 df = false) as ->.
  { apply not_true_is_false. intros (j & _ & Hj)%existsb_exists.
    by rewrite storable_cells in Hj. }
  rewrite bool_decide_eq_true_2
    by (change (map lower (columns df)) with (lower <$> columns df) in Hnd;
        by apply NoDup_fmap_1 in Hnd).
  rewrite Hfree.
  rewrite bool_decide_eq_false_2 by by apply plain_labels_nonempty.
  rewrite (bool_decide_eq_false_2 (columns df = []))
    by (by destruct (columns df)).
  rewrite (bool_decide_eq_true_2 _ Hnd). cbn [negb orb].
  apply Z.leb_le in Hmax.
  rewrite (proj2 (Z.ltb_ge _ _)) by lia.
  by rewrite Hcells.
Qed.

(** A table of the same name stops [to_sql], whatever the DataFrame, and
    nothing is written. *)
Lemma store_table_exists database df t :
  database !! "messages" = Some t ->
  exists e,
    store_table database df "messages" false = (Raise e, database) /\
    (storable df = true -> e = ValueError).
Proof.
  intros Hex.
  pose proof (storable_store ∅ df) as Hok.
  unfold store_table in *. change (lower "messages") with "messages" in *.
  rewrite Hex. rewrite lookup_empty in Hok.
  destruct (build_table false df) as [[]|e].
  - by exists ValueError.
  - exists e. split; [done|]. intros Hs. by specialize (Hok Hs eq_refl).
Qed.

(** What [to_sql] does to an open database, whatever the outcome: only the
    table [messages] can change, and only by being created. *)
Lemma store_table_effect database df :
  (forall t, t <> "messages" ->
     snd (store_table database df "messages" false) !! t = database !! t) /\
  (forall T, database !! "messages" = Some T ->
     snd (store_table database df "messages" false) !! "messages" = Some T) /\
  (fst (store_table database df "messages" false) = Ok tt ->
     database !! "messages" = None /\
     snd (store_table database df "messages" false) !! "messages" =
       Some {| tcolumns := columns df; trows := data df |}).
Proof.
  unfold store_table. change (lower "messages") with "messages".
  cbn [table_of].
  destruct (build_table false df) as [[]|]; [|by split_and!].
  destruct (database !! "messages") eqn:Hex;
    [by split_and!; [| |]; cbn; try done; intros; simplify_eq|].
  destruct (create_table _) as [[]|]; [|by split_and!].
  destruct (insert_rows _) as [[]|]; cbn [fst snd]; split_and!; try done.
  - intros t Ht. by rewrite lookup_insert_ne.
  - intros _. split; [done|]. apply lookup_insert_eq.
  - intros t Ht. by rewrite lookup_insert_ne.
Qed.

Lemma world_eta w :
  {| heap := heap w; log := log w; files := files w |} = w.
Proof. by destruct w. Qed.

Lemma reopen_existing (fs : gmap string (gmap string Table)) path table t :
  default ∅ (fs !! path) !! table = Some t ->
  <[path := default ∅ (fs !! path)]> fs = fs.
Proof.
  intros Hex. apply insert_id.
  destruct (fs !! path) as [db|] eqn:Hdb; [done|].
  cbn in Hex. by rewrite lookup_empty in Hex.
Qed.

(** ** save_data *)

(** [save_data] at a destination that names a database file. *)
Lemma save_data_file w l df p :
  heap w !! l = Some df ->
  create_engine ("sqlite:///" ++ name p) = Ok (File (name p)) ->
  unopenable (name p) = false ->
  save_data l p w =
  (fst (store_table (default ∅ (files w !! name p)) df "messages" false),
   {| heap := heap w; log := log w;
      files := <[name p :=
                  snd (store_table (default ∅ (files w !! name p)) df
                         "messages" false)]> (files w) |}).
Proof.
  intros Hl He Hu. unfold save_data.
  rewrite (bind_ok _ _ _ _ _ (deref_some _ _ _ Hl)).
  rewrite bind_lift, He. unfold to_sql. by rewrite Hu.
Qed.

(** What a successful [save_data] does: the rows go, without the row labels,
    to the table [messages] of the database file named like the final
    component of the path. *)
Lemma save_data_fresh w l df p :
  heap w !! l = Some df ->
  file_name (name p) = true ->
  storable df = true ->
  default ∅ (files w !! name p) !! "messages" = None ->
  save_data l p w =
  (Ok tt,
   {| heap := heap w; log := log w;
      files := <[name p :=
                  <["messages" := {| tcolumns := columns df; trows := data df |}]>
                    (default ∅ (files w !! name p))]> (files w) |}).
Proof.
  intros Hl Hn Hs Hfree.
  rewrite (save_data_file w l df p Hl (create_engine_name _ Hn)
             (proj2 (proj2 (file_name_spec _ Hn)))).
  by rewrite storable_store.
Qed.

Lemma save_data_exists w l df p t :
  heap w !! l = Some df ->
  file_name (name p) = true ->
  default ∅ (files w !! name p) !! "messages" = Some t ->
  exists e,
    save_data l p w = (Raise e, w) /\
    (storable df = true -> e = ValueError).
Proof.
  intros Hl Hn Hex.
  rewrite (save_data_file w l df p Hl (create_engine_name _ Hn)
             (proj2 (proj2 (file_name_spec _ Hn)))).
  destruct (store_table_exists _ df t Hex) as (e & He & Hv).
  rewrite He. cbn [fst snd].
  rewrite (reopen_existing _ _ _ _ Hex), world_eta. by exists e.
Qed.

(** What [save_data] can touch, whatever the outcome. *)
Lemma save_data_effect l p w r w' :
  save_data l p w = (r, w') ->
  heap w' = heap w /\ log w' = log w /\
  (forall f, f <> name p -> files w' !! f = files w !! f) /\
  (forall t, t <> "messages" ->
     default ∅ (files w' !! name p) !! t = default ∅ (files w !! name p) !! t) /\
  (forall T, default ∅ (files w !! name p) !! "messages" = Some T ->
     default ∅ (files w' !! name p) !! "messages" = Some T) /\
  (r = Ok tt -> file_name (name p) = true ->
     exists df,
       heap w !! l = Some df /\
       default ∅ (files w !! name p) !! "messages" = None /\
       default ∅ (files w' !! name p) !! "messages" =
         Some {| tcolumns := columns df; trows := data df |}).
Proof.
  intros H. destruct (heap w !! l) as [df|] eqn:Hl.
  2: { unfold save_data, bind, deref in H. rewrite Hl in H.
       inversion H; subst. by split_and!. }
  destruct (create_engine_cases p) as [He|(He & Hn1 & Hn2)].
  { unfold save_data in H.
    rewrite (bind_ok _ _ _ _ _ (deref_some _ _ _ Hl)), bind_lift, He in H.
    cbn [to_sql] in H. inversion H; subst w'. split_and!; try done.
    intros _ Hn. apply create_engine_name in Hn. congruence. }
  destruct (unopenable (name p)) eqn:Hu.
  { unfold save_data in H.
    rewrite (bind_ok _ _ _ _ _ (deref_some _ _ _ Hl)), bind_lift, He in H.
    unfold to_sql in H. rewrite Hu in H. inversion H; subst. by split_and!. }
  rewrite (save_data_file w l df p Hl He Hu) in H.
  destruct (store_table_effect (default ∅ (files w !! name p)) df)
    as (Hother & Hkeep & Hnew).
  inversion H; subst r w'; clear H. cbn [heap log files].
  rewrite !(lookup_insert_eq (files w) (name p)).
  change (default ∅ (Some ?m)) with m.
  split_and!; try done.
  - intros f Hf. by rewrite lookup_insert_ne.
  - intros Hr _. exists df. split; [done|]. by apply Hnew.
Qed.

(** Database files under any other name are left alone; in particular the
    file at the path itself, when the path has a directory part. *)
Lemma save_data_other_files w l p w' r f :
  save_data l p w = (r, w') ->
  f <> name p ->
  files w' !! f = files w !! f.
Proof.
  intros H Hf. by apply (save_data_effect _ _ _ _ _ H).
Qed.


(** C1 (the code departs from the claim): at the destination
    [out/db.sqlite] the table is written, without an index column and under
    the name [messages], to the file [db.sqlite] of the working directory;
    no store appears at [out/db.sqlite], the path that was given. *)
Theorem save_data_ignores_directory :
  path_str nested_db = "out/db.sqlite" /\
  exists w',
    save_data 0%nat nested_db (world_of [sample_cleaned]) = (Ok tt, w') /\
    files w' !! "out/db.sqlite" = None /\
    files w' !! "db.sqlite" =
      Some {[ "messages" := {| tcolumns := columns sample_cleaned;
                               trows := data sample_cleaned |} ]}.
Proof.
  split; [reflexivity|].
  eexists. split.
  - apply save_data_fresh; [reflexivity|reflexivity|reflexivity|reflexivity].
  - cbn [files world_of]. split.
    + rewrite lookup_insert_ne by done. apply lookup_empty.
    + change (name nested_db) with "db.sqlite".
      rewrite lookup_insert_eq, lookup_empty. cbn [default].
      by rewrite insert_empty.
Qed.




(** ** mapM *)

Lemma mapM_ok {A B : Type} (f : A -> result B) l ys :
  mapM f l = Ok ys <-> Forall2 (fun x y => f x = Ok y) l ys.
Proof.
  revert ys. induction l as [|x l IH]; intros ys; simpl.
  - split; [intros [= <-]; constructor | by inversion 1].
  - destruct (f x) as [y|e] eqn:Hx.
    + destruct (mapM f l) as [ys'|e] eqn:Hl.
      * split.
        -- intros [= <-]. constructor; [done|]. by apply IH.
        -- inversion 1 as [|? y' ? ys'' Hy Hrest]; subst.
           apply IH in Hrest. congruence.
      * split; [done|]. inversion 1 as [|? y' ? ys'' Hy Hrest]; subst.
        apply IH in Hrest. congruence.
    + split; [done|]. inversion 1; congruence.
Qed.

Lemma mapM_raise {A B : Type} (f : A -> result B) l e :
  mapM f l = Raise e -> exists x, x ∈ l /\ f x = Raise e.
Proof.
  induction l as [|x l IH]; simpl; [done|].
  destruct (f x) as [y|e'] eqn:Hx.
  - destruct (mapM f l) as [ys|e'] eqn:Hl; [done|].
    intros [= ->]. destruct IH as (x' & Hin & Hx'); [done|].
    exists x'. split; [by right|done].
  - intros [= ->]. exists x. split; [by left|done].
Qed.

Lemma mapM_total {A B : Type} (f : A -> result B) l :
  Forall (fun x => exists y, f x = Ok y) l -> exists ys, mapM f l = Ok ys.
Proof.
  induction 1 as [|x l [y Hy] _ [ys IH]]; simpl; [by eexists|].
  rewrite Hy, IH. by eexists.
Qed.

Lemma mapM_length {A B : Type} (f : A -> result B) l ys :
  mapM f l = Ok ys -> length ys = length l.
Proof. intros H%mapM_ok. symmetry. by eapply Forall2_length. Qed.

(** ** clean_data, step by step *)

Lemma expanded_table_length df labels ints :
  length (data (expanded_table df labels ints)) = length (data df).
Proof.
  unfold expanded_table, concat_axis1, drop_column. cbn [data].
  by rewrite length_imap, length_map.
Qed.

(** [clean_data] on a table of the heap: the expansion decides whether it
    raises; after it the caller's table loses its [categories] column, and
    the result is a new object. *)
Lemma clean_data_run w l df :
  heap w !! l = Some df ->
  clean_data l w =
  match expand_categories df with
  | Raise e => (Raise e, w)
  | Ok (labels, ints) =>
      let new := expanded_table df labels ints in
      let h := <[l := drop_column "categories" df]> (heap w) ++ [new] in
      match length (data df) with
      | O => (Raise ZeroDivisionError,
              {| heap := h; log := log w; files := files w |})
      | _ =>
          (Ok (length (heap w)),
           {| heap := <[length (heap w) := drop_duplicates new]> h;
              log := log w ++
                     [LogPercentage (count_true (duplicated (data new)))
                                    (length (data new));
                      LogRemoving;
                      LogNumber (length (data (drop_duplicates new)))];
              files := files w |})
      end
  end.
Proof.
  intros Hl. unfold clean_data, expand_categories.
  rewrite (bind_ok _ _ _ _ _ (deref_some _ _ _ Hl)).
  rewrite bind_lift.
  destruct (match positions "categories" (columns df) with
            | [j] => str_accessor (column j (data df))
            | _ => Raise AttributeError
            end) as [categories|e]; [|done].
  cbn [mbind result_bind]. rewrite bind_lift.
  destruct (match categories with
            | [] => Raise IndexError
            | _ => Ok _
            end) as [first_row|e]; [|done].
  cbn [mbind result_bind]. rewrite bind_lift.
  destruct (mapM name_of first_row) as [labels|e]; [|done].
  cbn [mbind result_bind]. rewrite bind_lift.
  destruct (mapM (mapM value_of) _) as [mapped|e]; [|done].
  cbn [mbind result_bind]. rewrite bind_lift.
  destruct (mapM (mapM astype_int) mapped) as [ints|e]; [|done].
  cbn [mbind result_bind].
  fold (expanded_table df labels ints).
  pose proof (expanded_table_length df labels ints) as Hlen.
  set (new := expanded_table df labels ints) in *.
  unfold bind, store, alloc, deref, logger_info, ret, raise. cbn [heap log files].
  rewrite length_insert.
  rewrite lookup_app_r by (rewrite length_insert; lia).
  rewrite length_insert, Nat.sub_diag. cbn [lookup list_lookup].
  rewrite Hlen.
  destruct (length (data df)) eqn:Hn; [done|].
  cbn [heap log files]. by rewrite <- !app_assoc.
Qed.

Lemma mapM_unwrap (f : value -> result value) l ys :
  mapM f l = Ok ys -> ys = map (fun x => unwrap (f x)) l.
Proof.
  intros H%mapM_ok. induction H as [|x y l ys Hx _ IH]; simpl; [done|].
  by rewrite Hx, IH.
Qed.

Lemma mapM_ok_elem {A B : Type} (f : A -> result B) l ys x :
  mapM f l = Ok ys -> x ∈ l -> exists y, f x = Ok y.
Proof.
  intros H%mapM_ok Hx. induction H as [|x' y l ys Hx' _ IH].
  - by apply elem_of_nil in Hx.
  - apply elem_of_cons in Hx as [->|Hx]; [by eexists|by apply IH].
Qed.

Lemma mapM2_unwrap (f : value -> result value) ll yss :
  mapM (mapM f) ll = Ok yss ->
  yss = map (map (fun x => unwrap (f x))) ll.
Proof.
  intros H%mapM_ok. induction H as [|l ys ll yss Hl _ IH]; simpl; [done|].
  by rewrite (mapM_unwrap _ _ _ Hl), IH.
Qed.

Lemma mapM2_ok_elem {A B : Type} (f : A -> result B) ll yss col x :
  mapM (mapM f) ll = Ok yss -> col ∈ ll -> x ∈ col -> exists y, f x = Ok y.
Proof.
  intros H Hcol Hx.
  destruct (mapM_ok_elem _ _ _ _ H Hcol) as [ys Hys].
  by eapply mapM_ok_elem.
Qed.

Lemma mapM2_raise {A B : Type} (f : A -> result B) ll e :
  mapM (mapM f) ll = Raise e ->
  exists col x, col ∈ ll /\ x ∈ col /\ f x = Raise e.
Proof.
  intros (col & Hcol & (x & Hx & He)%mapM_raise)%mapM_raise. eauto.
Qed.

Lemma mapM2_total {A B : Type} (f : A -> result B) ll :
  (forall col x, col ∈ ll -> x ∈ col -> exists y, f x = Ok y) ->
  exists yss, mapM (mapM f) ll = Ok yss.
Proof.
  intros H. apply mapM_total, Forall_forall. intros col Hcol.
  apply mapM_total, Forall_forall. intros x Hx.
  by apply (H col x).
Qed.

(** ** The expanded categories *)

Lemma max_list_const {A : Type} (f : A -> nat) (l : list A) n :
  l <> [] -> Forall (fun x => f x = n) l -> max_list (map f l) = n.
Proof.
  intros Hne Hall. destruct Hall as [|x l Hx Hall]; [done|]. clear Hne.
  simpl. rewrite Hx.
  induction Hall as [|y l Hy _ IH]; simpl; [lia|]. rewrite Hy. lia.
Qed.

(** When every cell splits into [n] segments the expanded frame has [n]
    columns and no missing cell. *)
Lemma expand_rect (segss : list (list string)) n :
  segss <> [] ->
  Forall (fun segs => length segs = n) segss ->
  expand (map Some segss) =
  map (fun k => map (fun segs => piece k (Some segs)) segss) (seq 0 n).
Proof.
  intros Hne Hall. unfold expand.
  assert (max_list (map (fun c => from_option length 0%nat c) (map Some segss)) = n)
    as ->.
  { rewrite map_map. by apply max_list_const. }
  apply map_ext. intros k. by rewrite map_map.
Qed.

Lemma map_lookup_seq {A B : Type} (h : option A -> B) (l : list A) :
  map (fun k => h (l !! k)) (seq 0 (length l)) = map (fun x => h (Some x)) l.
Proof.
  revert h. induction l as [|x l IH]; intros h; [done|].
  cbn [length seq map]. f_equal.
  rewrite <- seq_shift, map_map. apply (IH (fun o => h o)).
Qed.

(** Row [i] of the expanded frame, read across its columns, is the list of
    the segments of cell [i]. *)
Lemma rect_row (segss : list (list string)) n i segs (g : value -> value) :
  length segs = n ->
  segss !! i = Some segs ->
  map (cell i)
      (map (map g)
           (map (fun k => map (fun segs => piece k (Some segs)) segss) (seq 0 n))) =
  map (fun s => g (VStr s)) segs.
Proof.
  intros <- Hi. rewrite !map_map.
  etrans;
    [|exact (map_lookup_seq
               (fun o => g match o with Some s => VStr s | None => VNaN end) segs)].
  apply map_ext. intros k. unfold cell. rewrite nth_lookup.
  change (map g (map (fun segs0 => piece k (Some segs0)) segss))
    with (g <$> ((fun segs0 => piece k (Some segs0)) <$> segss)).
  rewrite !list_lookup_fmap, Hi. cbn [fmap option_fmap option_map default piece].
  by destruct (segs !! k).
Qed.

(** The cells of the expanded frame are the segments of the cells. *)
Lemma elem_of_rect (segss : list (list string)) n x :
  Forall (fun segs => length segs = n) segss ->
  (exists col,
     col ∈ map (fun k => map (fun segs => piece k (Some segs)) segss) (seq 0 n)
     /\ x ∈ col) <->
  (exists segs s, segs ∈ segss /\ s ∈ segs /\ x = VStr s).
Proof.
  intros Hall. split.
  - intros (col & Hcol & Hx).
    apply list_elem_of_In, in_map_iff in Hcol as (k & <- & Hk%in_seq).
    apply list_elem_of_In, in_map_iff in Hx as (segs & <- & Hsegs).
    apply list_elem_of_In in Hsegs.
    pose proof (proj1 (Forall_forall _ _) Hall segs Hsegs) as Hlen.
    destruct (lookup_lt_is_Some_2 segs k) as [s Hs]; [simpl in *; lia|].
    exists segs, s. split_and!; [done| |].
    + by eapply list_elem_of_lookup_2.
    + simpl. by rewrite Hs.
  - intros (segs & s & Hsegs & Hs & ->).
    apply list_elem_of_lookup in Hs as [k Hk].
    pose proof (proj1 (Forall_forall _ _) Hall segs Hsegs) as Hlen.
    exists (map (fun segs => piece k (Some segs)) segss). split.
    + apply list_elem_of_In, in_map_iff. exists k. split; [done|].
      apply in_seq. apply lookup_lt_Some in Hk. simpl in Hlen. lia.
    + apply list_elem_of_In, in_map_iff. exists segs.
      split; [|by apply list_elem_of_In]. simpl. by rewrite Hk.
Qed.

Lemma all_str_map (P : string -> Prop) (l : list value) :
  Forall (fun v => exists s, v = VStr s /\ P s) l ->
  exists ss, l = map VStr ss /\ Forall P ss.
Proof.
  induction 1 as [|v l (s & -> & Hs) _ (ss & -> & Hss)].
  - by exists [].
  - exists (s :: ss). split; [done|by constructor].
Qed.

Lemma name_of_segments segs :
  mapM name_of (map VStr segs) = Ok (map prefix_of segs).
Proof. induction segs as [|s segs IH]; simpl; [done|]. by rewrite IH. Qed.

(** The expansion of a table whose [categories] cells are strings with the
    same number [n] of segments: the labels come from the first cell, and
    the two conversions run over the [n] columns. *)
Lemma expand_categories_rect df j ss n :
  positions "categories" (columns df) = [j] ->
  column j (data df) = map VStr ss ->
  ss <> [] ->
  Forall (fun s => length (Py.split ";" s) = n) ss ->
  expand_categories df =
  (mapped ← mapM (mapM value_of)
              (map (fun k => map (fun segs => piece k (Some segs))
                                 (map (Py.split ";") ss)) (seq 0 n));
   ints ← mapM (mapM astype_int) mapped;
   Ok (map prefix_of (hd [] (map (Py.split ";") ss)), ints)).
Proof.
  intros Hj Hcol Hne Hall. unfold expand_categories. rewrite Hj, Hcol.
  assert (str_accessor (map VStr ss) = Ok (map VStr ss)) as ->.
  { destruct ss as [|s ss]; [done|]. reflexivity. }
  cbn [mbind result_bind].
  assert (map (str_split ";") (map VStr ss) = map Some (map (Py.split ";") ss))
    as Hcells by (by rewrite !map_map).
  rewrite Hcells.
  assert (Hne' : map (Py.split ";") ss <> []) by (by destruct ss).
  assert (Hall' : Forall (fun segs => length segs = n) (map (Py.split ";") ss)).
  { apply Forall_forall. intros segs Hin.
    apply list_elem_of_In, in_map_iff in Hin as (s & <- & Hs).
    apply list_elem_of_In in Hs.
    exact (proj1 (Forall_forall _ _) Hall s Hs). }
  rewrite (expand_rect _ n Hne' Hall').
  destruct ss as [|s0 ss]; [done|]. cbn [map hd].
  assert (Hrow := rect_row (map (Py.split ";") (s0 :: ss)) n 0 (Py.split ";" s0)
                    (fun x => x)).
  rewrite (map_ext (map (fun x : value => x)) (fun l => l)) in Hrow
    by (intros; apply map_id).
  rewrite map_id in Hrow. cbn [map] in Hrow. rewrite Hrow.
  - cbn [mbind result_bind].
    change (map (fun s : string => VStr s)) with (map VStr).
    by rewrite name_of_segments.
  - by inversion Hall.
  - reflexivity.
Qed.

(** A successful expansion: the cells were strings with the same number of
    segments. *)
Lemma expand_categories_ok_rect df labels ints :
  expand_categories df = Ok (labels, ints) ->
  exists j ss n,
    positions "categories" (columns df) = [j] /\
    column j (data df) = map VStr ss /\
    ss <> [] /\
    Forall (fun s => length (Py.split ";" s) = n) ss.
Proof.
  unfold expand_categories. intros H.
  destruct (positions "categories" (columns df)) as [|j [|? ?]] eqn:Hj;
    try done.
  destruct (str_accessor (column j (data df))) as [categories|] eqn:Hacc;
    [|done].
  cbn [mbind result_bind] in H.
  assert (categories = column j (data df)) as Hcat.
  { unfold str_accessor in Hacc. destruct (column j (data df)); [congruence|].
    destruct (existsb _ _); congruence. }
  destruct categories as [|c0 cs] eqn:Hcs; [done|]. rewrite <- Hcs in *.
  cbn [mbind result_bind] in H.
  destruct (mapM name_of _) as [labels'|]; [|done].
  cbn [mbind result_bind] in H.
  destruct (mapM (mapM value_of) _) as [mapped|] eqn:Hmap; [|done].
  set (cells := map (str_split ";") categories) in *.
  set (n := max_list (map (fun c => from_option length 0%nat c) cells)).
  assert (Hstr : exists s, VStr s ∈ categories).
  { unfold str_accessor in Hacc. rewrite <- Hcat, Hcs in Hacc.
    destruct (existsb is_str (c0 :: cs)) eqn:Hex; [|done].
    apply existsb_exists in Hex as (v & Hv & Hs). destruct v; try done.
    exists s. rewrite Hcs. by apply list_elem_of_In. }
  assert (Hn : (1 <= n)%nat).
  { destruct Hstr as [s Hs].
    assert (length (Py.split ";" s) <= n)%nat as Hle.
    { apply max_list_elem_of_le. apply list_elem_of_In, in_map_iff.
      exists (Some (Py.split ";" s)). split; [done|].
      apply in_map_iff. exists (VStr s). split; [done|by apply list_elem_of_In]. }
    pose proof (split_nonempty ";" s). destruct (Py.split ";" s); [done|].
    simpl in Hle. lia. }
  assert (Hall : Forall (fun v => exists s, v = VStr s /\
                                 length (Py.split ";" s) = n) categories).
  { apply Forall_forall. intros v Hv.
    assert (Hin : piece (n - 1) (str_split ";" v) ∈
                  map (piece (n - 1)) cells).
    { apply list_elem_of_In, in_map_iff. exists (str_split ";" v).
      split; [done|]. apply in_map_iff. exists v.
      split; [done|by apply list_elem_of_In]. }
    assert (Hcol : map (piece (n - 1)) cells ∈ expand cells).
    { unfold expand. fold n. apply list_elem_of_In, in_map_iff.
      exists (n - 1)%nat. split; [done|]. apply in_seq. lia. }
    destruct (mapM2_ok_elem _ _ _ _ _ Hmap Hcol Hin) as [y Hy].
    destruct v as [z|s|]; try done. exists s. split; [done|].
    simpl in Hy. destruct (Py.split ";" s !! (n - 1)%nat) eqn:Hlk; [|done].
    apply lookup_lt_Some in Hlk.
    assert (length (Py.split ";" s) <= n)%nat; [|lia].
    apply max_list_elem_of_le. apply list_elem_of_In, in_map_iff.
    exists (Some (Py.split ";" s)). split; [done|].
    apply in_map_iff. exists (VStr s). split; [done|by apply list_elem_of_In]. }
  destruct (all_str_map _ _ Hall) as (ss & Hss & Hall').
  exists j, ss, n. split_and!; [done|by rewrite <- Hcat| |done].
  intros ->. by rewrite Hcs in Hss.
Qed.

(** ** The conversion of one segment *)

Lemma convert_ok segment v :
  convert segment = Ok v <->
  exists x z,
    Py.split "-" segment !! 1%nat = Some x /\
    Py.int x = Some z /\
    (- 2 ^ 63 <= z < 2 ^ 63)%Z /\
    v = VInt z.
Proof.
  unfold convert. cbn [value_of mbind result_bind].
  destruct (Py.split "-" segment !! 1%nat) as [x|];
    cbn [mbind result_bind astype_int].
  - destruct (Py.int x) as [z|] eqn:Hz.
    + destruct ((- 2 ^ 63 <=? z) && (z <? 2 ^ 63))%Z eqn:Hr.
      * apply andb_true_iff in Hr as [?%Z.leb_le ?%Z.ltb_lt].
        split; [intros [= <-]; exists x, z; by repeat split|].
        intros (x' & z' & Hx & Hz' & _ & Hv). by simplify_eq.
      * split; [done|]. intros (x' & z' & Hx & Hz' & [Hlo Hhi] & _).
        simplify_eq. apply Z.leb_le in Hlo. apply Z.ltb_lt in Hhi.
        by rewrite Hlo, Hhi in Hr.
    + split; [done|]. intros (x' & z' & Hx & Hz' & _). by simplify_eq.
  - split; [done|]. by intros (? & ? & ? & _).
Qed.

(** The exception of a failed conversion tells what was wrong. *)
Lemma convert_raise segment e :
  convert segment = Raise e ->
  (e = IndexError /\ Py.split "-" segment !! 1%nat = None) \/
  (exists x, Py.split "-" segment !! 1%nat = Some x /\
     ((e = ValueError /\ Py.int x = None) \/
      (e = OverflowError /\ exists z, Py.int x = Some z /\
         ~ (- 2 ^ 63 <= z < 2 ^ 63)%Z))).
Proof.
  unfold convert. cbn [value_of mbind result_bind].
  destruct (Py.split "-" segment !! 1%nat) as [x|];
    cbn [mbind result_bind astype_int].
  - destruct (Py.int x) as [z|] eqn:Hz.
    + destruct ((- 2 ^ 63 <=? z) && (z <? 2 ^ 63))%Z eqn:Hr; [done|].
      intros [= <-]. right. exists x. split; [done|]. right. split; [done|].
      exists z. split; [done|]. intros [Hlo%Z.leb_le Hhi%Z.ltb_lt].
      by rewrite Hlo, Hhi in Hr.
    + intros [= <-]. right. exists x. split; [done|]. by left.
  - intros [= <-]. by left.
Qed.

(** A segment has a second piece exactly when it holds a [-]. *)
Lemma split_second sep s :
  Py.split sep s !! 1%nat = None <-> ~ In sep (list_ascii_of_string s).
Proof.
  induction s as [|c s IH]; simpl; [tauto|].
  destruct (Ascii.eqb c sep) eqn:Hc.
  - apply Ascii.eqb_eq in Hc as ->. split; [|tauto].
    pose proof (split_nonempty sep s). by destruct (Py.split sep s).
  - apply Ascii.eqb_neq in Hc.
    pose proof (split_nonempty sep s).
    destruct (Py.split sep s) as [|p ps] eqn:Hs; [done|].
    simpl in *. rewrite IH. tauto.
Qed.

(** ** What a successful expansion holds *)

Lemma expand_categories_ok df labels ints :
  expand_categories df = Ok (labels, ints) ->
  exists j ss n,
    positions "categories" (columns df) = [j] /\
    column j (data df) = map VStr ss /\
    ss <> [] /\
    Forall (fun s => length (Py.split ";" s) = n) ss /\
    labels = map prefix_of (hd [] (map (Py.split ";") ss)) /\
    forall i s, ss !! i = Some s ->
      Forall2 (fun segment v => convert segment = Ok v)
              (Py.split ";" s) (map (cell i) ints).
Proof.
  intros H.
  destruct (expand_categories_ok_rect _ _ _ H) as (j & ss & n & Hj & Hcol & Hne & Hall).
  exists j, ss, n. split_and!; try done.
  - rewrite (expand_categories_rect df j ss n) in H by done.
    destruct (mapM (mapM value_of) _) as [mapped|]; [|done].
    cbn [mbind result_bind] in H.
    destruct (mapM (mapM astype_int) mapped); [|done]. by inversion H.
  - intros i s Hi.
    rewrite (expand_categories_rect df j ss n) in H by done.
    set (E := map (fun k => map (fun segs => piece k (Some segs))
                                (map (Py.split ";") ss)) (seq 0 n)) in *.
    destruct (mapM (mapM value_of) E) as [mapped|] eqn:Hmap; [|done].
    cbn [mbind result_bind] in H.
    destruct (mapM (mapM astype_int) mapped) as [ints'|] eqn:Hint; [|done].
    inversion H; subst labels ints'; clear H.
    pose proof (mapM2_unwrap _ _ _ Hmap) as Hm.
    pose proof (mapM2_unwrap _ _ _ Hint) as Hi'.
    assert (Hall' : Forall (fun segs => length segs = n) (map (Py.split ";") ss)).
    { apply Forall_forall. intros segs Hin.
      apply list_elem_of_In, in_map_iff in Hin as (s' & <- & Hs).
      apply list_elem_of_In in Hs.
      exact (proj1 (Forall_forall _ _) Hall s' Hs). }
    assert (Hlen : length (Py.split ";" s) = n).
    { apply (proj1 (Forall_forall _ _) Hall s). by eapply list_elem_of_lookup_2. }
    assert (Hrow : map (cell i) ints =
                   map (fun x => unwrap (astype_int (unwrap (value_of (VStr x)))))
                       (Py.split ";" s)).
    { rewrite Hi', Hm.
      rewrite (map_map (map (fun x => unwrap (value_of x)))
                       (map (fun x => unwrap (astype_int x)))).
      rewrite (map_ext
                 (fun col => map (fun x => unwrap (astype_int x))
                                 (map (fun x => unwrap (value_of x)) col))
                 (map (fun x => unwrap (astype_int (unwrap (value_of x))))))
        by (intros; apply map_map).
      apply (rect_row _ n i); [done|].
      change (map (Py.split ";") ss) with (Py.split ";" <$> ss).
      by rewrite list_lookup_fmap, Hi. }
    rewrite Hrow.
    change (map ?f ?l) with (f <$> l). apply Forall2_fmap_r.
    apply Forall_Forall2_diag, Forall_forall. intros seg Hseg.
    assert (exists col, col ∈ E /\ VStr seg ∈ col) as (col & Hcol' & Hx).
    { apply (elem_of_rect _ n); [done|]. exists (Py.split ";" s), seg.
      split_and!; [|done|done].
      apply list_elem_of_In, in_map_iff. exists s. split; [done|].
      apply list_elem_of_In. by eapply list_elem_of_lookup_2. }
    destruct (mapM2_ok_elem _ _ _ _ _ Hmap Hcol' Hx) as [y Hy].
    assert (exists y', astype_int y = Ok y') as [y' Hy'].
    { apply (mapM2_ok_elem _ _ _ (map (fun x => unwrap (value_of x)) col) y Hint).
      - rewrite Hm. apply list_elem_of_In, in_map_iff. exists col.
        split; [done|by apply list_elem_of_In].
      - apply list_elem_of_In, in_map_iff. exists (VStr seg).
        split; [by rewrite Hy|by apply list_elem_of_In]. }
    unfold convert, compose. rewrite Hy. cbn [mbind result_bind unwrap].
    by rewrite Hy'.
Qed.

(** ** Tables without missing segments *)

Section Rectangular.

(** A table with one [categories] column whose cells are strings with the
    same number [n] of segments, in at least one row. *)
Variables (df : DataFrame) (j : nat) (ss : list string) (n : nat).
Hypothesis Hj : positions "categories" (columns df) = [j].
Hypothesis Hcol : column j (data df) = map VStr ss.
Hypothesis Hne : ss <> [].
Hypothesis Hall : Forall (fun s => length (Py.split ";" s) = n) ss.

Let E : list (list value) :=
  map (fun k => map (fun segs => piece k (Some segs)) (map (Py.split ";") ss))
      (seq 0 n).

Local Lemma rect_segments :
  Forall (fun segs => length segs = n) (map (Py.split ";") ss).
Proof using Hall.
  apply Forall_forall. intros segs Hin.
  apply list_elem_of_In, in_map_iff in Hin as (s & <- & Hs).
  apply list_elem_of_In in Hs.
  exact (proj1 (Forall_forall _ _) Hall s Hs).
Qed.

Local Lemma rect_cell_segment col x :
  col ∈ E -> x ∈ col ->
  exists s seg, s ∈ ss /\ seg ∈ Py.split ";" s /\ x = VStr seg.
Proof using Hall.
  intros Hc Hx.
  destruct (proj1 (elem_of_rect _ n x rect_segments)) as (segs & seg & Hs & Hseg & ->);
    [by exists col|].
  apply list_elem_of_In, in_map_iff in Hs as (s & <- & Hs).
  exists s, seg. split_and!; [by apply list_elem_of_In|done|done].
Qed.

Local Lemma rect_segment_cell s seg :
  s ∈ ss -> seg ∈ Py.split ";" s -> exists col, col ∈ E /\ VStr seg ∈ col.
Proof using Hall.
  intros Hs Hseg. apply (elem_of_rect _ n); [exact rect_segments|].
  exists (Py.split ";" s), seg. split_and!; [|done|done].
  apply list_elem_of_In, in_map_iff. exists s.
  split; [done|by apply list_elem_of_In].
Qed.

(** The expansion succeeds when every segment converts; when it raises,
    the exception is that of a segment's conversion, and it is
    [IndexError] unless every segment has a second piece. *)
Lemma expand_categories_rect_cases :
  match expand_categories df with
  | Ok _ =>
      forall s seg, s ∈ ss -> seg ∈ Py.split ";" s ->
        exists v, convert seg = Ok v
  | Raise e =>
      (exists s seg, s ∈ ss /\ seg ∈ Py.split ";" s /\ convert seg = Raise e) /\
      (e = IndexError \/
       forall s seg, s ∈ ss -> seg ∈ Py.split ";" s ->
         Py.split "-" seg !! 1%nat <> None)
  end.
Proof using Hj Hcol Hne Hall.
  rewrite (expand_categories_rect df j ss n Hj Hcol Hne Hall). fold E.
  destruct (mapM (mapM value_of) E) as [mapped|e] eqn:Hmap;
    cbn [mbind result_bind].
  - assert (Hsecond : forall s seg, s ∈ ss -> seg ∈ Py.split ";" s ->
              exists y, value_of (VStr seg) = Ok y).
    { intros s seg Hs Hseg.
      destruct (rect_segment_cell s seg Hs Hseg) as (col & Hc & Hx).
      by eapply mapM2_ok_elem. }
    pose proof (mapM2_unwrap _ _ _ Hmap) as Hm.
    destruct (mapM (mapM astype_int) mapped) as [ints|e] eqn:Hint;
      cbn [mbind result_bind].
    + intros s seg Hs Hseg.
      destruct (rect_segment_cell s seg Hs Hseg) as (col & Hc & Hx).
      destruct (Hsecond s seg Hs Hseg) as [y Hy].
      assert (exists y', astype_int y = Ok y') as [y' Hy'].
      { apply (mapM2_ok_elem _ _ _ (map (fun x => unwrap (value_of x)) col) y Hint).
        - rewrite Hm. apply list_elem_of_In, in_map_iff. exists col.
          split; [done|by apply list_elem_of_In].
        - apply list_elem_of_In, in_map_iff. exists (VStr seg).
          split; [by rewrite Hy|by apply list_elem_of_In]. }
      exists y'. unfold convert. by rewrite Hy.
    + split.
      * apply mapM2_raise in Hint as (col' & y & Hc' & Hy & He).
        rewrite Hm in Hc'.
        apply list_elem_of_In, in_map_iff in Hc' as (col & <- & Hc).
        apply list_elem_of_In, in_map_iff in Hy as (x & <- & Hx).
        apply list_elem_of_In in Hc, Hx.
        destruct (rect_cell_segment col x Hc Hx) as (s & seg & Hs & Hseg & ->).
        exists s, seg. split_and!; [done|done|].
        destruct (Hsecond s seg Hs Hseg) as [y Hy].
        unfold convert. rewrite Hy in *. exact He.
      * right. intros s seg Hs Hseg.
        destruct (Hsecond s seg Hs Hseg) as [y Hy]. simpl in Hy.
        by destruct (Py.split "-" seg !! 1%nat).
  - apply mapM2_raise in Hmap as (col & x & Hc & Hx & He).
    destruct (rect_cell_segment col x Hc Hx) as (s & seg & Hs & Hseg & ->).
    split.
    + exists s, seg. split_and!; [done|done|]. unfold convert. by rewrite He.
    + left. simpl in He. destruct (Py.split "-" seg !! 1%nat); by inversion He.
Qed.

End Rectangular.

(** ** Selections *)

Lemma select_sublist {A : Type} (mask : list bool) (l : list A) :
  sublist (select mask l) l.
Proof.
  revert l. induction mask as [|b mask IH]; intros [|x l]; simpl;
    try apply sublist_nil_l.
  destruct b; [by apply sublist_skip|by apply sublist_cons].
Qed.

Lemma select_elem_of {A : Type} (mask : list bool) (l : list A) x :
  x ∈ select mask l -> x ∈ l.
Proof. intros Hx. eapply elem_of_sublist; [done|apply select_sublist]. Qed.

(** After [drop(columns=[c])] no column carries the label. *)
Lemma drop_cells_not_elem_of c cols : c ∉ drop_cells c cols cols.
Proof.
  unfold drop_cells. induction cols as [|c' cols IH]; simpl.
  - apply not_elem_of_nil.
  - destruct (String.eqb c' c) eqn:Hc; simpl; [done|].
    apply String.eqb_neq in Hc. apply not_elem_of_cons. split; [congruence|done].
Qed.

(** ** What a successful clean_data leaves *)

Lemma expand_categories_nonempty df labels ints :
  expand_categories df = Ok (labels, ints) -> length (data df) <> 0%nat.
Proof.
  intros (j & ss & n & _ & Hcol & Hne & _)%expand_categories_ok.
  intros Hlen. destruct (data df); [|done]. by destruct ss.
Qed.

Lemma clean_data_ok w l df l' w' :
  heap w !! l = Some df ->
  clean_data l w = (Ok l', w') ->
  exists labels ints,
    expand_categories df = Ok (labels, ints) /\
    l' = length (heap w) /\
    heap w' = <[length (heap w) := drop_duplicates (expanded_table df labels ints)]>
                (<[l := drop_column "categories" df]> (heap w) ++
                 [expanded_table df labels ints]) /\
    files w' = files w.
Proof.
  intros Hl. rewrite (clean_data_run w l df Hl).
  destruct (expand_categories df) as [[labels ints]|e]; [|done].
  cbn zeta. destruct (length (data df)); [done|].
  intros [= <- <-]. by exists labels, ints.
Qed.

(** A failed [clean_data] has changed nothing. *)
Lemma clean_data_raise w l e w' :
  clean_data l w = (Raise e, w') -> w' = w /\ e <> ZeroDivisionError.
Proof.
  destruct (heap w !! l) as [df|] eqn:Hl.
  - rewrite (clean_data_run w l df Hl).
    destruct (expand_categories df) as [[labels ints]|e'] eqn:He.
    + apply expand_categories_nonempty in He.
      cbn zeta. by destruct (length (data df)).
    + intros [= <- <-]. split; [done|]. intros ->.
      unfold expand_categories in He.
      destruct (positions "categories" (columns df)) as [|j [|? ?]]; try done.
      unfold str_accessor in He.
      destruct (column j (data df)) as [|c cs] eqn:Hc; [done|].
      destruct (existsb is_str (c :: cs)); [|done].
      cbn [mbind result_bind] in He.
      destruct (mapM name_of _) as [?|e1] eqn:H1.
      * cbn [mbind result_bind] in He.
        destruct (mapM (mapM value_of) _) as [?|e2] eqn:H2.
        -- cbn [mbind result_bind] in He.
           destruct (mapM (mapM astype_int) _) as [?|e3] eqn:H3; [done|].
           inversion He; subst e3.
           apply mapM2_raise in H3 as (? & x & _ & _ & Hx).
           destruct x as [?|s|]; try done. simpl in Hx.
           destruct (Py.int s); [|done]. by destruct (_ && _).
        -- inversion He; subst e2.
           apply mapM2_raise in H2 as (? & x & _ & _ & Hx).
           destruct x as [?|s|]; try done. simpl in Hx.
           by destruct (Py.split "-" s !! 1%nat).
      * inversion He; subst e1.
        apply mapM_raise in H1 as (x & _ & Hx). by destruct x.
  - unfold clean_data, bind, deref. rewrite Hl. by intros [= <- <-].
Qed.

(** The rows of the expanded table: each is the input row at the same
    position without its [categories] cell, followed by the integers of
    that row's own segments, position by position. The labels are those of
    the first row's segments. *)
Lemma expanded_table_rows df labels ints :
  expand_categories df = Ok (labels, ints) ->
  exists j s0 r0 rest,
    positions "categories" (columns df) = [j] /\
    data df = r0 :: rest /\
    cell j r0 = VStr s0 /\
    labels = map prefix_of (Py.split ";" s0) /\
    Forall2
      (fun ri r => exists s vs,
         cell j ri = VStr s /\
         length (Py.split ";" s) = length (Py.split ";" s0) /\
         Forall2 (fun segment v => convert segment = Ok v) (Py.split ";" s) vs /\
         r = drop_cells "categories" (columns df) ri ++ vs)
      (data df) (data (expanded_table df labels ints)).
Proof.
  intros H.
  destruct (expand_categories_ok _ _ _ H)
    as (j & ss & n & Hj & Hcol & Hne & Hall & Hlab & Hrows).
  destruct ss as [|s0 ss']; [done|].
  destruct (data df) as [|r0 rest] eqn:Hdata; [done|].
  exists j, s0, r0, rest. split_and!; try done.
  - by inversion Hcol.
  - rewrite <- Hdata.
    apply Forall2_same_length_lookup_2; [by rewrite expanded_table_length|].
    intros i ri r Hi Hr.
    unfold expanded_table, concat_axis1, drop_column in Hr. cbn [data] in Hr.
    rewrite list_lookup_imap in Hr.
    change (map ?f ?l) with (f <$> l) in Hr at 1.
    rewrite list_lookup_fmap, Hi in Hr. cbn in Hr. inversion Hr; subst r; clear Hr.
    assert (exists s, (s0 :: ss') !! i = Some s /\ cell j ri = VStr s) as (s & Hs & Hc).
    { assert ((VStr <$> (s0 :: ss')) !! i = Some (cell j ri)) as Hlk.
      { change (VStr <$> (s0 :: ss')) with (map VStr (s0 :: ss')).
        rewrite <- Hcol, <- Hdata. unfold column.
        change (map ?f ?l) with (f <$> l).
        by rewrite list_lookup_fmap, Hi. }
      rewrite list_lookup_fmap in Hlk.
      destruct ((s0 :: ss') !! i) as [s|]; [|done].
      exists s. split; [done|]. by inversion Hlk. }
    exists s, (map (cell i) ints). split_and!; [done| |by apply Hrows|done].
    assert (length (Py.split ";" s) = n) as ->.
    { apply (proj1 (Forall_forall _ _) Hall s). by eapply list_elem_of_lookup_2. }
    symmetry. by inversion Hall.
Qed.

(** C2, as amended: on a table without rows (and with a [categories]
    column) [clean_data] raises [IndexError] when it reads the first row of
    the expanded categories; nothing has been changed by then. *)
Theorem clean_data_empty w l df j :
  heap w !! l = Some df ->
  positions "categories" (columns df) = [j] ->
  data df = [] ->
  clean_data l w = (Raise IndexError, w).
Proof.
  intros Hl Hj Hdata. rewrite (clean_data_run w l df Hl).
  unfold expand_categories. by rewrite Hj, Hdata.
Qed.

(** No input makes [clean_data] divide by zero: the table that reaches the
    percentage has as many rows as the input, and an empty input has been
    rejected before. *)
Lemma clean_data_no_zero_division w l :
  fst (clean_data l w) <> Raise ZeroDivisionError.
Proof.
  destruct (clean_data l w) as [[l'|e] w'] eqn:H; [done|].
  apply clean_data_raise in H as [_ He]. simpl. congruence.
Qed.

(** C4, as amended: a successful [clean_data] has removed the [categories]
    column from the caller's table, in place; the rows of that table, its
    other columns and every other object are as before, and the result is a
    new object. *)
Theorem clean_data_mutates_argument w l df l' w' :
  heap w !! l = Some df ->
  clean_data l w = (Ok l', w') ->
  heap w' !! l = Some (drop_column "categories" df) /\
  ("categories" ∉ columns (drop_column "categories" df)) /\
  heap w !! l' = None /\
  is_Some (heap w' !! l') /\
  (forall k, k <> l -> k <> l' -> heap w' !! k = heap w !! k) /\
  files w' = files w.
Proof.
  intros Hl H.
  destruct (clean_data_ok _ _ _ _ _ Hl H) as (labels & ints & _ & -> & Hh & Hf).
  pose proof (lookup_lt_Some _ _ _ Hl) as Hlt.
  rewrite Hh. split_and!.
  - rewrite list_lookup_insert_ne by lia.
    rewrite lookup_app_l by (rewrite length_insert; lia).
    by rewrite list_lookup_insert_eq.
  - apply drop_cells_not_elem_of.
  - by apply lookup_ge_None.
  - rewrite list_lookup_insert_eq; [by eexists|].
    rewrite length_app, length_insert. simpl. lia.
  - intros k Hk Hk'. rewrite list_lookup_insert_ne by done.
    destruct (decide (k < length (heap w))%nat).
    + rewrite lookup_app_l by (rewrite length_insert; lia).
      by rewrite list_lookup_insert_ne.
    + rewrite lookup_ge_None_2; [symmetry; apply lookup_ge_None_2; lia|].
      rewrite length_app, length_insert. simpl. lia.
  - done.
Qed.

Lemma clean_data_empty_witness :
  clean_data 0%nat (world_of [empty_joined]) =
  (Raise IndexError, world_of [empty_joined]).
Proof.
  apply (clean_data_empty (world_of [empty_joined]) 0%nat empty_joined 2%nat);
    reflexivity.
Defined.

(** C2, the claim as stated fails: on the table without rows the exception
    is [IndexError], raised before the percentage is computed, and not a
    division by zero. *)
Lemma empty_table_not_zero_division :
  fst (clean_data 0%nat (world_of [empty_joined])) = Raise IndexError /\
  fst (clean_data 0%nat (world_of [empty_joined])) <> Raise ZeroDivisionError.
Proof. split; [reflexivity|discriminate]. Qed.

Lemma clean_data_mutates_argument_witness :
  heap (world_of [sample_joined]) !! 0%nat = Some sample_joined /\
  clean_data 0%nat (world_of [sample_joined]) = (Ok 1%nat, cleaned_world) /\
  heap cleaned_world !! 0%nat = Some (drop_column "categories" sample_joined) /\
  ("categories" ∉ columns (drop_column "categories" sample_joined)).
Proof.
  split; [reflexivity|]. split; [vm_compute; reflexivity|].
  refine ((fun H => conj (proj1 H) (proj1 (proj2 H)))
            (clean_data_mutates_argument (world_of [sample_joined]) 0%nat
               sample_joined 1%nat cleaned_world _ _));
    [reflexivity|vm_compute; reflexivity].
Defined.

(** C4, the claim as stated fails: after a successful call the caller's
    table is not the table it was, and has no [categories] column. *)
Lemma clean_data_not_pure :
  exists l' w' df,
    clean_data 0%nat (world_of [sample_joined]) = (Ok l', w') /\
    heap (world_of [sample_joined]) !! 0%nat = Some sample_joined /\
    heap w' !! 0%nat = Some df /\
    df <> sample_joined /\
    ("categories" ∈ columns sample_joined) /\
    ("categories" ∉ columns df).
Proof.
  eexists _, _, _.
  split_and!; [vm_compute; reflexivity|reflexivity|reflexivity|done| |].
  - cbn. rewrite !elem_of_cons. tauto.
  - cbn. rewrite !elem_of_cons, elem_of_nil. intros [|[|]]; done.
Qed.

(** ** duplicated and drop_duplicates *)

Section Duplicates.

Context {A : Type} `{EqDecision A}.

Lemma length_duplicated_from (seen l : list A) :
  length (duplicated_from seen l) = length l.
Proof.
  revert seen. induction l as [|x l IH]; intros seen; simpl; [done|].
  by rewrite IH.
Qed.

(** An element is marked exactly when it was seen before. *)
Lemma duplicated_from_lookup (seen l : list A) i x :
  l !! i = Some x ->
  exists b,
    duplicated_from seen l !! i = Some b /\
    (b = true <-> x ∈ seen \/ exists k, (k < i)%nat /\ l !! k = Some x).
Proof.
  revert seen i. induction l as [|y l IH]; intros seen i Hi; [done|].
  destruct i as [|i]; simpl in *.
  - inversion Hi; subst y. eexists. split; [done|].
    rewrite bool_decide_eq_true. split; [by left|].
    intros [?|(k & Hk & _)]; [done|lia].
  - destruct (IH (y :: seen) i Hi) as (b & Hb & Hiff).
    exists b. split; [done|]. rewrite Hiff, elem_of_cons. split.
    + intros [[->|Hs]|(k & Hk & Hl)].
      * right. exists 0%nat. split; [lia|done].
      * by left.
      * right. exists (S k). split; [lia|done].
    + intros [Hs|(k & Hk & Hl)]; [by left; right|].
      destruct k as [|k]; simpl in Hl.
      * left. left. by inversion Hl.
      * right. exists k. split; [lia|done].
Qed.

Lemma select_first_fresh (seen l : list A) x :
  x ∈ select (map negb (duplicated_from seen l)) l -> x ∉ seen.
Proof.
  revert seen. induction l as [|y l IH]; intros seen; simpl.
  - by intros ?%elem_of_nil.
  - case_bool_decide as Hy; simpl.
    + intros Hx%IH. rewrite not_elem_of_cons in Hx. tauto.
    + intros [->|Hx%IH]%elem_of_cons; [done|].
      rewrite not_elem_of_cons in Hx. tauto.
Qed.

Lemma select_first_NoDup (seen l : list A) :
  NoDup (select (map negb (duplicated_from seen l)) l).
Proof.
  revert seen. induction l as [|y l IH]; intros seen; simpl; [constructor|].
  case_bool_decide as Hy; simpl; [apply IH|].
  constructor; [|apply IH].
  intros Hin%select_first_fresh. rewrite not_elem_of_cons in Hin. tauto.
Qed.

Lemma select_first_complete (seen l : list A) x :
  x ∈ l -> x ∈ seen \/ x ∈ select (map negb (duplicated_from seen l)) l.
Proof.
  revert seen. induction l as [|y l IH]; intros seen; simpl.
  - by intros ?%elem_of_nil.
  - intros [->|Hx]%elem_of_cons.
    + case_bool_decide; simpl; [by left|right; by left].
    + destruct (IH (y :: seen) Hx) as [[->|Hs]%elem_of_cons|Hsel].
      * case_bool_decide; simpl; [by left|right; by left].
      * by left.
      * right. case_bool_decide; simpl; [done|by right].
Qed.

Lemma select_negb_length (mask : list bool) (l : list A) :
  length mask = length l ->
  (length (select (map negb mask) l) + count_true mask = length l)%nat.
Proof.
  revert l. induction mask as [|b mask IH]; intros [|x l]; simpl; try done.
  intros [= Hlen]. specialize (IH l Hlen). unfold count_true in *.
  destruct b.
  - rewrite filter_cons_True by done. simpl. lia.
  - rewrite filter_cons_False by (by intros ?). simpl. lia.
Qed.

End Duplicates.

Lemma convert_rows_functional segs vs vs' :
  Forall2 (fun segment v => convert segment = Ok v) segs vs ->
  Forall2 (fun segment v => convert segment = Ok v) segs vs' ->
  vs = vs'.
Proof.
  intros H. revert vs'. induction H as [|seg v segs vs Hv _ IH]; intros vs' H'.
  - by inversion H'.
  - inversion H' as [|? v' ? vs'' Hv' Hrest]; subst.
    rewrite Hv in Hv'. inversion Hv'; subst. f_equal. by apply IH.
Qed.

(** C8: the labels of the new columns are the prefixes of the segments of
    row 0, in order, placed after the remaining columns; every row of the
    output carries, under these labels, the integers of the segments of its
    own source row taken by position, whatever names those segments hold. *)
Theorem clean_data_columns_from_first_row w l df l' w' :
  heap w !! l = Some df ->
  clean_data l w = (Ok l', w') ->
  exists j r0 rest s0 out,
    positions "categories" (columns df) = [j] /\
    data df = r0 :: rest /\
    cell j r0 = VStr s0 /\
    heap w' !! l' = Some out /\
    columns out =
      drop_cells "categories" (columns df) (columns df) ++
      map prefix_of (Py.split ";" s0) /\
    (forall k segment,
       Py.split ";" s0 !! k = Some segment ->
       columns out !!
         (length (drop_cells "categories" (columns df) (columns df)) + k)%nat =
       Some (hd "" (Py.split "-" segment))) /\
    (forall r, r ∈ data out ->
       exists ri s vs,
         ri ∈ data df /\
         cell j ri = VStr s /\
         Forall2 (fun segment v => convert segment = Ok v) (Py.split ";" s) vs /\
         r = drop_cells "categories" (columns df) ri ++ vs).
Proof.
  intros Hl H.
  destruct (clean_data_ok _ _ _ _ _ Hl H) as (labels & ints & He & -> & Hh & _).
  destruct (expanded_table_rows _ _ _ He)
    as (j & s0 & r0 & rest & Hj & Hdata & Hc0 & -> & Hrows).
  exists j, r0, rest, s0, (drop_duplicates (expanded_table df
                              (map prefix_of (Py.split ";" s0)) ints)).
  split_and!; try done.
  - rewrite Hh. apply list_lookup_insert_eq.
    rewrite length_app, length_insert. simpl. lia.
  - intros k seg Hk. cbn [drop_duplicates expanded_table concat_axis1 columns
                          drop_column].
    rewrite lookup_app_r by lia.
    replace (_ + k - _)%nat with k by lia.
    change (map prefix_of ?x) with (prefix_of <$> x).
    by rewrite list_lookup_fmap, Hk.
  - intros r Hr. cbn [drop_duplicates data] in Hr.
    apply select_elem_of in Hr.
    apply list_elem_of_lookup in Hr as [i Hi].
    destruct (Forall2_lookup_r _ _ _ _ _ Hrows Hi)
      as (ri & Hri & s & vs & Hc & _ & Hvs & ->).
    exists ri, s, vs. split_and!; try done.
    by eapply list_elem_of_lookup_2.
Qed.

Lemma clean_data_columns_from_first_row_witness :
  exists j r0 rest s0 out,
    positions "categories" (columns sample_joined) = [j] /\
    data sample_joined = r0 :: rest /\
    cell j r0 = VStr s0 /\
    heap cleaned_world !! 1%nat = Some out /\
    columns out =
      drop_cells "categories" (columns sample_joined) (columns sample_joined) ++
      map prefix_of (Py.split ";" s0) /\
    (forall k segment,
       Py.split ";" s0 !! k = Some segment ->
       columns out !!
         (length (drop_cells "categories" (columns sample_joined)
                    (columns sample_joined)) + k)%nat =
       Some (hd "" (Py.split "-" segment))) /\
    (forall r, r ∈ data out ->
       exists ri s vs,
         ri ∈ data sample_joined /\
         cell j ri = VStr s /\
         Forall2 (fun segment v => convert segment = Ok v) (Py.split ";" s) vs /\
         r = drop_cells "categories" (columns sample_joined) ri ++ vs).
Proof.
  apply (clean_data_columns_from_first_row (world_of [sample_joined]) 0%nat
           sample_joined 1%nat cleaned_world);
    [reflexivity|vm_compute; reflexivity].
Defined.

(** ** The positions drop_duplicates keeps *)

Lemma elem_of_kept mask i : i ∈ kept mask <-> mask !! i = Some true.
Proof.
  revert i. induction mask as [|b mask IH]; intros i; simpl.
  - by rewrite elem_of_nil.
  - rewrite elem_of_app. change (map S (kept mask)) with (S <$> kept mask).
    rewrite list_elem_of_fmap. destruct i as [|i]; simpl.
    + split.
      * intros [Hb|(k & ? & _)]; [|done].
        destruct b; [done|by apply elem_of_nil in Hb].
      * intros [= ->]. left. by left.
    + rewrite <- IH. split.
      * intros [Hb|(k & [= ->] & Hk)]; [|done].
        destruct b; [by apply list_elem_of_singleton in Hb
                    |by apply elem_of_nil in Hb].
      * intros Hi. right. by exists i.
Qed.

Lemma kept_sorted mask : StronglySorted Nat.lt (kept mask).
Proof.
  induction mask as [|b mask IH]; simpl; [constructor|].
  assert (Hs : StronglySorted Nat.lt (map S (kept mask))).
  { clear -IH. induction IH as [|k ks _ IH Hall]; simpl; constructor; [done|].
    apply Forall_forall. intros x (y & <- & Hy)%list_elem_of_In%in_map_iff.
    apply list_elem_of_In in Hy.
    pose proof (proj1 (Forall_forall _ _) Hall y Hy). unfold Nat.lt in *. lia. }
  destruct b; [|done]. simpl. constructor; [done|].
  apply Forall_forall. intros x (y & <- & _)%list_elem_of_In%in_map_iff.
  unfold Nat.lt. lia.
Qed.

Lemma select_kept {A : Type} (mask : list bool) (l : list A) :
  length mask = length l ->
  Forall2 (fun i x => l !! i = Some x) (kept mask) (select mask l).
Proof.
  revert l. induction mask as [|b mask IH]; intros [|x l] Hlen; simpl;
    try done.
  assert (Hrest : Forall2 (fun i y => (x :: l) !! i = Some y)
                    (map S (kept mask)) (select mask l)).
  { change (map S (kept mask)) with (S <$> kept mask).
    apply Forall2_fmap_l. simpl. apply IH. by inversion Hlen. }
  destruct b; [|done]. simpl. by constructor.
Qed.

(** [drop_duplicates(keep='first')] keeps exactly the rows that equal no
    earlier row, in their order and under their labels. *)
Lemma drop_duplicates_positions df :
  exists ks,
    StronglySorted Nat.lt ks /\
    (forall i, i ∈ ks <->
       exists r, data df !! i = Some r /\
                 forall k, (k < i)%nat -> data df !! k <> Some r) /\
    Forall2 (fun i r => data df !! i = Some r) ks (data (drop_duplicates df)) /\
    (length (index df) = length (data df) ->
     Forall2 (fun i a => index df !! i = Some a) ks (index (drop_duplicates df))).
Proof.
  exists (kept (map negb (duplicated (data df)))).
  assert (Hlen : length (map negb (duplicated (data df))) = length (data df)).
  { rewrite length_map. apply length_duplicated_from. }
  split_and!.
  - apply kept_sorted.
  - intros i. rewrite elem_of_kept.
    change (map negb ?l) with (negb <$> l). rewrite list_lookup_fmap.
    split.
    + intros Hi.
      destruct (duplicated (data df) !! i) as [b|] eqn:Hb; [|done].
      destruct b; [done|]. clear Hi.
      destruct (data df !! i) as [r|] eqn:Hr.
      2: { apply lookup_ge_None in Hr. apply lookup_lt_Some in Hb.
           unfold duplicated in Hb. rewrite length_duplicated_from in Hb. lia. }
      exists r. split; [done|]. intros k Hk Hkr.
      destruct (duplicated_from_lookup [] (data df) i r Hr) as (b & Hb' & Hiff).
      unfold duplicated in Hb. rewrite Hb in Hb'. inversion Hb'; subst b.
      assert (false = true); [|done]. apply Hiff. right. by exists k.
    + intros (r & Hr & Hfirst).
      destruct (duplicated_from_lookup [] (data df) i r Hr) as (b & Hb & Hiff).
      unfold duplicated. rewrite Hb. destruct b; [|done].
      destruct (proj1 Hiff eq_refl) as [?%elem_of_nil|(k & Hk & Hkr)]; [done|].
      by destruct (Hfirst k Hk).
  - cbn [drop_duplicates data]. by apply select_kept.
  - intros Hidx. cbn [drop_duplicates index]. apply select_kept. congruence.
Qed.

(** C10, as amended: the rows are compared after the expansion, over all
    columns of the expanded table. The output keeps, in order and under
    their row labels, exactly the rows of the expanded table that equal no
    earlier row: its rows are the rows at the positions of the first
    occurrences, taken in increasing order. So every row survives in its
    first occurrence and no row occurs twice; the output has as many rows
    as the input minus the rows marked as duplicates, hence one less when
    exactly one row of the expanded table repeats an earlier one. Rows that
    are equal in the input are equal after the expansion. *)
Theorem clean_data_drops_duplicates w l df l' w' :
  heap w !! l = Some df ->
  clean_data l w = (Ok l', w') ->
  exists labels ints,
    expand_categories df = Ok (labels, ints) /\
    let full := expanded_table df labels ints in
    let out := drop_duplicates full in
    heap w' !! l' = Some out /\
    length (data full) = length (data df) /\
    NoDup (data out) /\
    sublist (data out) (data full) /\
    (forall r, r ∈ data full -> r ∈ data out) /\
    (forall i r, data full !! i = Some r ->
       exists b, duplicated (data full) !! i = Some b /\
         (b = true <-> exists k, (k < i)%nat /\ data full !! k = Some r)) /\
    (length (data out) + count_true (duplicated (data full)) =
       length (data df))%nat /\
    (count_true (duplicated (data full)) = 1%nat ->
       length (data out) = (length (data df) - 1)%nat) /\
    (forall i k r, (k < i)%nat ->
       data df !! i = Some r -> data df !! k = Some r ->
       duplicated (data full) !! i = Some true) /\
    (exists ks,
       StronglySorted Nat.lt ks /\
       (forall i, i ∈ ks <->
          exists r, data full !! i = Some r /\
                    forall k, (k < i)%nat -> data full !! k <> Some r) /\
       Forall2 (fun i r => data full !! i = Some r) ks (data out) /\
       (length (index df) = length (data df) ->
        Forall2 (fun i a => index df !! i = Some a) ks (index out))).
Proof.
  intros Hl H.
  destruct (clean_data_ok _ _ _ _ _ Hl H) as (labels & ints & He & -> & Hh & _).
  exists labels, ints. split; [done|]. intros full out.
  assert (Hlen : length (data full) = length (data df))
    by apply expanded_table_length.
  assert (Hsum : (length (data out) + count_true (duplicated (data full)) =
                  length (data df))%nat).
  { rewrite <- Hlen. apply select_negb_length. apply length_duplicated_from. }
  assert (Hmark : forall i r, data full !! i = Some r ->
            exists b, duplicated (data full) !! i = Some b /\
              (b = true <-> exists k, (k < i)%nat /\ data full !! k = Some r)).
  { intros i r Hi.
    destruct (duplicated_from_lookup [] (data full) i r Hi) as (b & Hb & Hiff).
    exists b. split; [done|]. rewrite Hiff. split; [|by right].
    intros [?%elem_of_nil|?]; done. }
  split_and!; try done.
  - rewrite Hh. apply list_lookup_insert_eq.
    rewrite length_app, length_insert. simpl. lia.
  - apply select_first_NoDup.
  - apply select_sublist.
  - intros r Hr.
    destruct (select_first_complete [] (data full) r Hr) as [?%elem_of_nil|?]; done.
  - lia.
  - intros i k r Hk Hi Hk'.
    destruct (expanded_table_rows _ _ _ He)
      as (j & s0 & r0 & rest & _ & _ & _ & _ & Hrows).
    destruct (Forall2_lookup_l _ _ _ _ _ Hrows Hi)
      as (fi & Hfi & s & vs & Hc & _ & Hvs & ->).
    destruct (Forall2_lookup_l _ _ _ _ _ Hrows Hk')
      as (fk & Hfk & s' & vs' & Hc' & _ & Hvs' & ->).
    rewrite Hc in Hc'. inversion Hc'; subst s'.
    rewrite (convert_rows_functional _ _ _ Hvs' Hvs) in Hfk.
    destruct (Hmark i _ Hfi) as (b & Hb & Hiff).
    rewrite Hb. f_equal. apply Hiff. by exists k.
  - destruct (drop_duplicates_positions full) as (ks & Hs & Hin & Hd & Hi).
    exists ks. split_and!; try done.
    intros Hidx. apply Hi. by rewrite Hlen.
Qed.

Lemma clean_data_drops_duplicates_witness :
  exists labels ints,
    expand_categories sample_joined = Ok (labels, ints) /\
    let full := expanded_table sample_joined labels ints in
    let out := drop_duplicates full in
    heap cleaned_world !! 1%nat = Some out /\
    length (data full) = length (data sample_joined) /\
    NoDup (data out) /\
    sublist (data out) (data full) /\
    (forall r, r ∈ data full -> r ∈ data out) /\
    (forall i r, data full !! i = Some r ->
       exists b, duplicated (data full) !! i = Some b /\
         (b = true <-> exists k, (k < i)%nat /\ data full !! k = Some r)) /\
    (length (data out) + count_true (duplicated (data full)) =
       length (data sample_joined))%nat /\
    (count_true (duplicated (data full)) = 1%nat ->
       length (data out) = (length (data sample_joined) - 1)%nat) /\
    (forall i k r, (k < i)%nat ->
       data sample_joined !! i = Some r -> data sample_joined !! k = Some r ->
       duplicated (data full) !! i = Some true) /\
    (exists ks,
       StronglySorted Nat.lt ks /\
       (forall i, i ∈ ks <->
          exists r, data full !! i = Some r /\
                    forall k, (k < i)%nat -> data full !! k <> Some r) /\
       Forall2 (fun i r => data full !! i = Some r) ks (data out) /\
       (length (index sample_joined) = length (data sample_joined) ->
        Forall2 (fun i a => index sample_joined !! i = Some a) ks (index out))).
Proof.
  apply (clean_data_drops_duplicates (world_of [sample_joined]) 0%nat
           sample_joined 1%nat cleaned_world);
    [reflexivity|vm_compute; reflexivity].
Defined.

(** C10, the claim as stated fails: this input has exactly one row that
    repeats an earlier row, and the output has one row, not two: the third
    row differs from the first in the input and equals it after the
    expansion. *)
Lemma clean_data_duplicates_after_expansion :
  length (data renamed_segment) = 3%nat /\
  count_true (duplicated (data renamed_segment)) = 1%nat /\
  exists l' w' out,
    clean_data 0%nat (world_of [renamed_segment]) = (Ok l', w') /\
    heap w' !! l' = Some out /\
    data out = [[VInt 1; VStr "help"; VInt 1; VInt 0]] /\
    length (data out) <> (length (data renamed_segment) - 1)%nat.
Proof.
  split; [reflexivity|]. split; [reflexivity|].
  eexists _, _, _. split_and!; [vm_compute; reflexivity|reflexivity|reflexivity|].
  simpl. lia.
Qed.

(** ** The example of the specification *)

Lemma column_const j (rows : list (list value)) v :
  Forall (fun r => cell j r = v) rows ->
  column j rows = map (fun _ => v) rows.
Proof.
  induction 1 as [|r rows Hr _ IH]; simpl; [done|]. by rewrite Hr, IH.
Qed.

Lemma convert_example vs :
  Forall2 (fun segment v => convert segment = Ok v)
          (Py.split ";" "related-1;request-0") vs ->
  vs = [VInt 1; VInt 0].
Proof.
  intros H. apply (convert_rows_functional _ _ _ H).
  repeat constructor.
Qed.

(** C9: on a table whose rows hold ["related-1;request-0"] in the
    [categories] column, [clean_data] succeeds; its output has, after the
    other columns, the two columns [related] and [request], no column
    [categories], and every row ends with the integers 1 and 0. *)
Theorem clean_data_related_request w l df j :
  heap w !! l = Some df ->
  positions "categories" (columns df) = [j] ->
  data df <> [] ->
  Forall (fun r => cell j r = VStr "related-1;request-0") (data df) ->
  exists l' w' out,
    clean_data l w = (Ok l', w') /\
    heap w' !! l' = Some out /\
    columns out =
      drop_cells "categories" (columns df) (columns df) ++ ["related"; "request"] /\
    ("categories" ∉ columns out) /\
    data out <> [] /\
    (forall r, r ∈ data out <->
       exists ri, ri ∈ data df /\
         r = drop_cells "categories" (columns df) ri ++ [VInt 1; VInt 0]).
Proof.
  intros Hl Hj Hne Hall.
  set (ss := map (fun _ : list value => "related-1;request-0") (data df)).
  assert (Hcol : column j (data df) = map VStr ss).
  { rewrite (column_const j _ _ Hall). unfold ss. by rewrite map_map. }
  assert (Hss : ss <> []) by (unfold ss; by destruct (data df)).
  assert (Hn : Forall (fun s => length (Py.split ";" s) = 2%nat) ss).
  { apply Forall_forall. intros s Hs.
    apply list_elem_of_In, in_map_iff in Hs as (? & <- & _). reflexivity. }
  pose proof (expand_categories_rect_cases df j ss 2 Hj Hcol Hss Hn) as Hcases.
  destruct (expand_categories df) as [[labels ints]|e] eqn:He.
  2: { destruct Hcases as [(s & seg & Hs & Hseg & Hconv) _].
       apply list_elem_of_In, in_map_iff in Hs as (? & <- & _).
       cbn in Hseg. rewrite !elem_of_cons, elem_of_nil in Hseg.
       destruct Hseg as [->|[->|[]]]; by vm_compute in Hconv. }
  clear Hcases.
  destruct (clean_data l w) as [[l'|e] w'] eqn:Hrun.
  2: { rewrite (clean_data_run w l df Hl), He in Hrun. cbn zeta in Hrun.
       pose proof (expand_categories_nonempty _ _ _ He).
       by destruct (length (data df)). }
  destruct (clean_data_ok _ _ _ _ _ Hl Hrun) as (labels' & ints' & He' & -> & Hh & _).
  rewrite He in He'. inversion He'; subst labels' ints'; clear He'.
  destruct (expanded_table_rows _ _ _ He)
    as (j' & s0 & r0 & rest & Hj' & Hdata & Hc0 & -> & Hrows).
  rewrite Hj in Hj'. inversion Hj'; subst j'; clear Hj'.
  assert (s0 = "related-1;request-0") as ->.
  { rewrite Hdata in Hall. inversion Hall as [|? ? Hr0 _]; subst.
    rewrite Hc0 in Hr0. by inversion Hr0. }
  set (full := expanded_table df (map prefix_of (Py.split ";" "related-1;request-0"))
                 ints) in *.
  assert (Hfull : forall r, r ∈ data full <->
            exists ri, ri ∈ data df /\
              r = drop_cells "categories" (columns df) ri ++ [VInt 1; VInt 0]).
  { intros r. split.
    - intros [i Hi]%list_elem_of_lookup.
      destruct (Forall2_lookup_r _ _ _ _ _ Hrows Hi)
        as (ri & Hri & s & vs & Hc & _ & Hvs & ->).
      exists ri. split; [by eapply list_elem_of_lookup_2|].
      assert (s = "related-1;request-0") as ->.
      { apply list_elem_of_lookup_2 in Hri.
        pose proof (proj1 (Forall_forall _ _) Hall ri Hri) as Hri'.
        simpl in Hri'. rewrite Hc in Hri'. by inversion Hri'. }
      by rewrite (convert_example _ Hvs).
    - intros (ri & [i Hi]%list_elem_of_lookup & ->).
      destruct (Forall2_lookup_l _ _ _ _ _ Hrows Hi)
        as (r & Hr & s & vs & Hc & _ & Hvs & ->).
      assert (s = "related-1;request-0") as ->.
      { apply list_elem_of_lookup_2 in Hi.
        pose proof (proj1 (Forall_forall _ _) Hall ri Hi) as Hri'.
        simpl in Hri'. rewrite Hc in Hri'. by inversion Hri'. }
      rewrite <- (convert_example _ Hvs). by eapply list_elem_of_lookup_2. }
  assert (Hout : forall r, r ∈ data (drop_duplicates full) <-> r ∈ data full).
  { intros r. split; [apply select_elem_of|].
    intros Hr.
    destruct (select_first_complete [] (data full) r Hr) as [?%elem_of_nil|?]; done. }
  exists (length (heap w)), w', (drop_duplicates full). split_and!.
  - done.
  - rewrite Hh. apply list_lookup_insert_eq.
    rewrite length_app, length_insert. simpl. lia.
  - reflexivity.
  - cbn [drop_duplicates columns]. unfold full, expanded_table.
    cbn [concat_axis1 columns drop_column].
    rewrite elem_of_app. intros [Hin|Hin].
    + by apply drop_cells_not_elem_of in Hin.
    + cbn in Hin. rewrite !elem_of_cons, elem_of_nil in Hin.
      destruct Hin as [|[|[]]]; done.
  - intros Hnil.
    assert (Hin : drop_cells "categories" (columns df) r0 ++ [VInt 1; VInt 0]
                  ∈ data (drop_duplicates full)).
    { apply Hout, Hfull. exists r0. split; [|done]. rewrite Hdata. by left. }
    rewrite Hnil in Hin. by apply elem_of_nil in Hin.
  - intros r. by rewrite Hout, Hfull.
Qed.

Lemma clean_data_related_request_witness :
  exists l' w' out,
    clean_data 0%nat (world_of [related_request]) = (Ok l', w') /\
    heap w' !! l' = Some out /\
    columns out =
      drop_cells "categories" (columns related_request) (columns related_request)
      ++ ["related"; "request"] /\
    ("categories" ∉ columns out) /\
    data out <> [] /\
    (forall r, r ∈ data out <->
       exists ri, ri ∈ data related_request /\
         r = drop_cells "categories" (columns related_request) ri
             ++ [VInt 1; VInt 0]).
Proof.
  apply (clean_data_related_request (world_of [related_request]) 0%nat
           related_request 2%nat); [reflexivity|reflexivity|done|].
  repeat constructor.
Defined.

(** The example itself, run. *)
Example related_request_run :
  exists w',
    clean_data 0%nat (world_of [related_request]) = (Ok 1%nat, w') /\
    heap w' !! 1%nat =
      Some {| columns := ["id"; "message"; "related"; "request"];
              index := [0];
              data := [[VInt 1; VStr "help"; VInt 1; VInt 0]] |}.
Proof. eexists. split; [vm_compute; reflexivity|reflexivity]. Qed.

(** ** Which segments make clean_data fail *)

Lemma convert_rows_ints segs vs :
  Forall2 (fun segment v => convert segment = Ok v) segs vs ->
  exists zs,
    vs = map VInt zs /\
    Forall2 (fun segment z =>
               exists x, Py.split "-" segment !! 1%nat = Some x /\
                         Py.int x = Some z) segs zs.
Proof.
  induction 1 as [|seg v segs vs Hv _ (zs & -> & IH)].
  - by exists [].
  - apply convert_ok in Hv as (x & z & Hx & Hz & _ & ->).
    exists (z :: zs). split; [done|]. constructor; [by exists x|done].
Qed.

(** C5, as amended: the piece that is converted is [split('-')[1]], the
    text between the first [-] and the next one (or the end). On a table
    with rows whose [categories] cells are ASCII strings with equally many
    segments, [clean_data] succeeds exactly when every segment has such a
    piece, [int()] accepts it and the integer fits 64 bits; it raises
    [IndexError], [ValueError] or [OverflowError] exactly when some segment
    fails one of these, and [IndexError] exactly when some segment holds no
    [-]. A failed call changes nothing. After a successful call every
    output row carries the integers of these pieces. *)
Theorem clean_data_conversion w l df j ss n :
  heap w !! l = Some df ->
  positions "categories" (columns df) = [j] ->
  column j (data df) = map VStr ss ->
  Forall (fun s => isascii s = true) ss ->
  ss <> [] ->
  Forall (fun s => length (Py.split ";" s) = n) ss ->
  ((exists l' w', clean_data l w = (Ok l', w')) <->
   (forall s seg, s ∈ ss -> seg ∈ Py.split ";" s ->
      exists x z, Py.split "-" seg !! 1%nat = Some x /\ Py.int x = Some z /\
                  (- 2 ^ 63 <= z < 2 ^ 63)%Z)) /\
  ((exists e, clean_data l w = (Raise e, w) /\
              (e = IndexError \/ e = ValueError \/ e = OverflowError)) <->
   (exists s seg, s ∈ ss /\ seg ∈ Py.split ";" s /\
      (~ In "-"%char (list_ascii_of_string seg) \/
       exists x, Py.split "-" seg !! 1%nat = Some x /\
         ~ exists z, Py.int x = Some z /\ (- 2 ^ 63 <= z < 2 ^ 63)%Z))) /\
  (clean_data l w = (Raise IndexError, w) <->
   (exists s seg, s ∈ ss /\ seg ∈ Py.split ";" s /\
      ~ In "-"%char (list_ascii_of_string seg))) /\
  (forall l' w' out r,
     clean_data l w = (Ok l', w') -> heap w' !! l' = Some out -> r ∈ data out ->
     exists ri s zs,
       ri ∈ data df /\
       cell j ri = VStr s /\
       Forall2 (fun seg z =>
                  exists x, Py.split "-" seg !! 1%nat = Some x /\
                            Py.int x = Some z) (Py.split ";" s) zs /\
       r = drop_cells "categories" (columns df) ri ++ map VInt zs).
Proof.
  intros Hl Hj Hcol _ Hne Hall.
  pose proof (expand_categories_rect_cases df j ss n Hj Hcol Hne Hall) as Hcases.
  pose proof (clean_data_run w l df Hl) as Hrun.
  assert (Hnot : forall seg,
            (~ exists v, convert seg = Ok v) <->
            (~ In "-"%char (list_ascii_of_string seg) \/
             exists x, Py.split "-" seg !! 1%nat = Some x /\
               ~ exists z, Py.int x = Some z /\ (- 2 ^ 63 <= z < 2 ^ 63)%Z)).
  { intros seg. rewrite <- split_second. split.
    - intros Hno. destruct (Py.split "-" seg !! 1%nat) as [x|] eqn:Hx; [|by left].
      right. exists x. split; [done|]. intros (z & Hz & Hr).
      apply Hno. exists (VInt z). apply convert_ok. by exists x, z.
    - intros [Hx|(x & Hx & Hno)] [v (x' & z & Hx' & Hz & Hr & _)%convert_ok].
      + congruence.
      + rewrite Hx in Hx'. inversion Hx'; subst x'. apply Hno. by exists z. }
  destruct (expand_categories df) as [[labels ints]|e] eqn:He.
  - (* every segment converts *)
    pose proof (expand_categories_nonempty _ _ _ He) as Hrows.
    cbn zeta in Hrun. destruct (length (data df)) eqn:Hlen; [done|].
    split_and!.
    + split; [|by eauto].
      intros _ s seg Hs Hseg.
      destruct (Hcases s seg Hs Hseg) as [v (x & z & ? & ? & ? & _)%convert_ok].
      by exists x, z.
    + split.
      * intros (e & Hr & _). by rewrite Hrun in Hr.
      * intros (s & seg & Hs & Hseg & Hbad). apply Hnot in Hbad.
        destruct Hbad. by apply (Hcases s seg).
    + split.
      * intros Hr. by rewrite Hrun in Hr.
      * intros (s & seg & Hs & Hseg & Hbad).
        destruct (proj2 (Hnot seg)); [by left|]. by apply (Hcases s seg).
    + intros l' w' out r Hok Hout Hr.
      destruct (clean_data_ok _ _ _ _ _ Hl Hok)
        as (labels' & ints' & He' & -> & Hh & _).
      rewrite He in He'. inversion He'; subst labels' ints'.
      rewrite Hh, list_lookup_insert_eq in Hout
        by (rewrite length_app, length_insert; simpl; lia).
      inversion Hout; subst out. cbn [drop_duplicates data] in Hr.
      apply select_elem_of, list_elem_of_lookup in Hr as [i Hi].
      destruct (expanded_table_rows _ _ _ He)
        as (j' & s0 & r0 & rest & Hj' & _ & _ & _ & Hfull).
      rewrite Hj in Hj'. inversion Hj'; subst j'.
      destruct (Forall2_lookup_r _ _ _ _ _ Hfull Hi)
        as (ri & Hri & s & vs & Hc & _ & Hvs & ->).
      destruct (convert_rows_ints _ _ Hvs) as (zs & -> & Hzs).
      exists ri, s, zs. split_and!; try done.
      by eapply list_elem_of_lookup_2.
  - (* some segment does not convert *)
    destruct Hcases as [(s & seg & Hs & Hseg & Hconv) Hfirst].
    assert (Hclass : e = IndexError \/ e = ValueError \/ e = OverflowError).
    { destruct (convert_raise _ _ Hconv)
        as [[-> _]|(x & _ & [[-> _]|[-> _]])]; tauto. }
    assert (Hbad : ~ exists v, convert seg = Ok v).
    { intros [v Hv]. congruence. }
    split_and!.
    + split; [intros (l' & w' & Hok); by rewrite Hrun in Hok|].
      intros Hgood. destruct Hbad.
      destruct (Hgood s seg Hs Hseg) as (x & z & Hx & Hz & Hr).
      exists (VInt z). apply convert_ok. by exists x, z.
    + split; [|intros _; by exists e].
      intros _. exists s, seg. split_and!; [done|done|]. by apply Hnot.
    + split.
      * intros Hr. rewrite Hrun in Hr. inversion Hr; subst e.
        exists s, seg. split_and!; [done|done|]. apply split_second.
        destruct (convert_raise _ _ Hconv) as [[_ ?]|(x & _ & [[? _]|[? _]])];
          done.
      * intros (s' & seg' & Hs' & Hseg' & Hno). rewrite Hrun.
        destruct Hfirst as [->|Hfirst]; [done|].
        apply split_second in Hno. by destruct (Hfirst s' seg' Hs' Hseg').
    + intros l' w' out r Hok. by rewrite Hrun in Hok.
Qed.

Lemma clean_data_conversion_witness :
  exists l' w', clean_data 0%nat (world_of [sample_joined]) = (Ok l', w').
Proof.
  refine (proj2 (proj1 (clean_data_conversion (world_of [sample_joined]) 0%nat
                          sample_joined 2%nat
                          ["related-1;offer-0"; "related-1;offer-0"] 2%nat
                          _ _ _ _ _ _)) _);
    [reflexivity|reflexivity|reflexivity|by repeat constructor|done
    |by repeat constructor|].
  intros s seg Hs Hseg.
  rewrite !elem_of_cons, elem_of_nil in Hs.
  assert (s = "related-1;offer-0") as -> by (destruct Hs as [|[|[]]]; done).
  cbn in Hseg. rewrite !elem_of_cons, elem_of_nil in Hseg.
  destruct Hseg as [->|[->|[]]].
  - exists "1", 1%Z. by vm_compute.
  - exists "0", 0%Z. by vm_compute.
Defined.

(** C5, the claim as stated fails: the only value of this table has a [-]
    and the part after it, ["-1"], is an integer for [int()]; [clean_data]
    still fails with [ValueError], because it converts the empty text
    between the first [-] and the second. *)
Lemma clean_data_negative_value :
  Py.split ";" "related--1" = ["related--1"] /\
  Spec.suffix "related--1" = Some "-1" /\
  Spec.integer_parsable "-1" /\
  fst (clean_data 0%nat (world_of [negative_value])) = Raise ValueError.
Proof.
  split_and!; [reflexivity|reflexivity|by exists (-1)%Z|reflexivity].
Qed.

(** A row with fewer segments than the first fails with [AttributeError] on
    the cell it lacks, and its own unparsable value is never reported. *)
Lemma clean_data_ragged :
  fst (clean_data 0%nat (world_of [ragged])) = Raise AttributeError.
Proof. reflexivity. Qed.

(** ** load_data *)

Lemma load_data_run read_csv mp cp w :
  load_data read_csv mp cp w =
  match read_csv mp with
  | Raise e => (Raise e, w)
  | Ok m =>
      match read_csv cp with
      | Raise e => (Raise e, w)
      | Ok c =>
          match merge m c "id" with
          | Raise e => (Raise e, w)
          | Ok t =>
              (Ok (length (heap w)),
               {| heap := heap w ++ [t]; log := log w; files := files w |})
          end
      end
  end.
Proof.
  unfold load_data. rewrite bind_lift. destruct (read_csv mp); [|done].
  rewrite bind_lift. destruct (read_csv cp); [|done].
  rewrite bind_lift. by destruct (merge _ _ _).
Qed.

Lemma key_position_ok key cols j :
  key_position key cols = Ok j <-> positions key cols = [j].
Proof.
  unfold key_position. destruct (positions key cols) as [|j' [|? ?]];
    split; intros H; by inversion H.
Qed.

(** What a successful merge returns. *)
Lemma merge_ok left right key t :
  merge left right key = Ok t ->
  exists lj rj,
    positions key (columns left) = [lj] /\
    positions key (columns right) = [rj] /\
    data t = inner_join lj rj (data left) (data right) /\
    index t = range_index (length (data t)) /\
    columns t =
      (let rcols := remove_at rj (columns right) in
       let overlap := filter (fun c => c ∈ rcols) (columns left) in
       map (add_suffix overlap "_x") (columns left) ++
       map (add_suffix overlap "_y") rcols).
Proof.
  unfold merge. intros H.
  destruct (key_position key (columns right)) as [rj|] eqn:Hr; [|done].
  cbn [mbind result_bind] in H.
  destruct (key_position key (columns left)) as [lj|] eqn:Hl; [|done].
  cbn [mbind result_bind] in H.
  destruct (negb _); [done|].
  destruct (_ ++ _); [|done].
  inversion H; subst t; clear H. exists lj, rj.
  split_and!; try done; by apply key_position_ok.
Qed.

Lemma elem_of_inner_join lj rj lrows rrows r :
  r ∈ inner_join lj rj lrows rrows <->
  exists lr rr,
    lr ∈ lrows /\ rr ∈ rrows /\ cell rj rr = cell lj lr /\
    r = lr ++ remove_at rj rr.
Proof.
  unfold inner_join. rewrite list_elem_of_In, in_flat_map. split.
  - intros (lr & Hlr & Hr). apply in_map_iff in Hr as (rr & <- & Hrr).
    apply list_elem_of_In, list_elem_of_filter in Hrr as [Heq Hrr].
    exists lr, rr. split_and!; try done. by apply list_elem_of_In.
  - intros (lr & rr & Hlr & Hrr & Heq & ->).
    exists lr. split; [by apply list_elem_of_In|].
    apply in_map_iff. exists rr. split; [done|].
    apply list_elem_of_In, list_elem_of_filter. by split.
Qed.

(** ** Counting the joined rows *)

(** With distinct keys on the right, a key matches one row or none. *)
Lemma matches_unique_key rj (rrows : list (list value)) k :
  NoDup (column rj rrows) ->
  length (filter (fun rr => cell rj rr = k) rrows) =
  if decide (k ∈ column rj rrows) then 1%nat else 0%nat.
Proof.
  induction rrows as [|rr rrows IH]; intros Hnd.
  - case_decide as Hin; [by apply elem_of_nil in Hin|done].
  - cbn [column map] in *. apply NoDup_cons in Hnd as [Hnot Hnd].
    specialize (IH Hnd). fold (column rj rrows) in *.
    destruct (decide (cell rj rr = k)) as [<-|Hne].
    + rewrite filter_cons_True by done. cbn [length]. rewrite IH.
      rewrite decide_False by done. rewrite decide_True by (by left). done.
    + rewrite filter_cons_False by done. rewrite IH.
      destruct (decide (k ∈ column rj rrows)) as [Hin|Hin].
      * rewrite decide_True by (by right). done.
      * rewrite decide_False; [done|].
        intros [?|?]%elem_of_cons; congruence.
Qed.

Lemma inner_join_length lj rj lrows rrows :
  NoDup (column rj rrows) ->
  length (inner_join lj rj lrows rrows) =
  length (filter (fun k => k ∈ column rj rrows) (column lj lrows)).
Proof.
  intros Hnd. unfold inner_join.
  induction lrows as [|lr lrows IH]; simpl; [done|].
  rewrite length_app, length_map, IH, (matches_unique_key _ _ _ Hnd).
  destruct (decide (cell lj lr ∈ column rj rrows)) as [Hin|Hin].
  - by rewrite filter_cons_True.
  - by rewrite filter_cons_False.
Qed.

Lemma filter_all_length {A : Type} (P : A -> Prop) `{forall x, Decision (P x)}
    (l : list A) :
  length (filter P l) = length l -> forall x, x ∈ l -> P x.
Proof.
  intros Hlen x Hx. destruct (decide (P x)) as [|Hn]; [done|].
  pose proof (length_filter_lt P l x Hx Hn). lia.
Qed.

Lemma filter_all {A : Type} (P : A -> Prop) `{forall x, Decision (P x)}
    (l : list A) :
  (forall x, x ∈ l -> P x) -> filter P l = l.
Proof.
  induction l as [|x l IH]; intros Hall; [done|].
  rewrite filter_cons_True by (apply Hall; by left).
  f_equal. apply IH. intros y Hy. apply Hall. by right.
Qed.

(** The keys found on both sides, for key columns without repetition. *)
Lemma common_keys_count (lk rk : list value) :
  NoDup lk -> NoDup rk ->
  let c := length (filter (fun k => k ∈ rk) lk) in
  (c <= Nat.min (length lk) (length rk))%nat /\
  (c = Nat.min (length lk) (length rk) <-> lk ⊆ rk \/ rk ⊆ lk).
Proof.
  intros Hl Hr c.
  assert (Hsub : filter (fun k => k ∈ rk) lk ⊆+ rk).
  { apply NoDup_submseteq; [by apply NoDup_filter|].
    by intros x [? _]%list_elem_of_filter. }
  assert (Hc1 : (c <= length lk)%nat) by apply length_filter.
  assert (Hc2 : (c <= length rk)%nat) by by apply submseteq_length.
  split; [lia|]. split.
  - intros Hc. destruct (Nat.le_ge_cases (length lk) (length rk)).
    + left. intros x Hx.
      apply (filter_all_length (fun k => k ∈ rk) lk); [unfold c in *; lia|done].
    + right. intros x Hx.
      assert (Hp : filter (fun k => k ∈ rk) lk ≡ₚ rk).
      { apply submseteq_length_Permutation; [done|]. unfold c in *. lia. }
      rewrite <- Hp in Hx. by apply list_elem_of_filter in Hx as [_ ?].
  - intros [Hsub'|Hsub'].
    + assert (filter (fun k => k ∈ rk) lk = lk) as Heq.
      { apply filter_all. intros x Hx. by apply Hsub'. }
      unfold c. rewrite Heq.
      pose proof (submseteq_length _ _ (NoDup_submseteq _ _ Hl Hsub')). lia.
    + assert (rk ⊆+ filter (fun k => k ∈ rk) lk) as Hback.
      { apply NoDup_submseteq; [done|]. intros x Hx.
        apply list_elem_of_filter. split; [done|by apply Hsub']. }
      pose proof (submseteq_length _ _ Hback).
      pose proof (submseteq_length _ _ (NoDup_submseteq _ _ Hr Hsub')).
      unfold c in *. lia.
Qed.

Lemma ids_column df j :
  positions "id" (columns df) = [j] -> ids df = column j (data df).
Proof. intros H. unfold ids. by rewrite H. Qed.

(** What a successful [load_data] returns: a new object holding the merge
    of the two parsed tables. *)
Lemma load_data_ok read_csv mp cp m c w l w' :
  read_csv mp = Ok m ->
  read_csv cp = Ok c ->
  load_data read_csv mp cp w = (Ok l, w') ->
  exists t, merge m c "id" = Ok t /\ heap w' !! l = Some t /\ heap w !! l = None.
Proof.
  intros Hm Hc. rewrite load_data_run, Hm, Hc.
  destruct (merge m c "id") as [t|]; [|done].
  intros [= <- <-]. exists t. split_and!; [done| |by apply lookup_ge_None].
  cbn [heap]. rewrite lookup_app_r by lia. by rewrite Nat.sub_diag.
Qed.

(** C3, as amended: when no id is repeated within either table, the join
    has at most as many rows as the shorter table, and exactly that many
    when and only when the ids of one table are all among the ids of the
    other; identical id sets are one such case. *)
Theorem load_data_row_count read_csv mp cp m c w l w' :
  read_csv mp = Ok m ->
  read_csv cp = Ok c ->
  load_data read_csv mp cp w = (Ok l, w') ->
  NoDup (ids m) ->
  NoDup (ids c) ->
  exists t,
    heap w' !! l = Some t /\
    (length (data t) <= Nat.min (length (data m)) (length (data c)))%nat /\
    (length (data t) = Nat.min (length (data m)) (length (data c)) <->
     ids m ⊆ ids c \/ ids c ⊆ ids m) /\
    ((forall v, v ∈ ids m <-> v ∈ ids c) ->
     length (data t) = Nat.min (length (data m)) (length (data c))).
Proof.
  intros Hm Hc Hload Hnm Hnc.
  destruct (load_data_ok _ _ _ _ _ _ _ _ Hm Hc Hload) as (t & Hmerge & Ht & _).
  destruct (merge_ok _ _ _ _ Hmerge) as (lj & rj & Hlj & Hrj & Hdata & _).
  rewrite (ids_column _ _ Hlj) in *. rewrite (ids_column _ _ Hrj) in *.
  exists t. split; [done|].
  rewrite Hdata, (inner_join_length _ _ _ _ Hnc).
  destruct (common_keys_count _ _ Hnm Hnc) as [Hle Hiff].
  unfold column in Hle, Hiff. rewrite !length_map in Hle, Hiff.
  split_and!; [done|done|].
  intros Hsame. apply Hiff. left. intros v Hv. by apply Hsame.
Qed.

Lemma load_data_row_count_witness :
  exists t,
    heap (snd (load_data sample_csv (rel "messages.csv") (rel "categories.csv") w0))
      !! 0%nat = Some t /\
    (length (data t) <=
       Nat.min (length (data sample_messages)) (length (data sample_categories)))%nat /\
    (length (data t) =
       Nat.min (length (data sample_messages)) (length (data sample_categories)) <->
     ids sample_messages ⊆ ids sample_categories \/
     ids sample_categories ⊆ ids sample_messages) /\
    ((forall v, v ∈ ids sample_messages <-> v ∈ ids sample_categories) ->
     length (data t) =
       Nat.min (length (data sample_messages)) (length (data sample_categories))).
Proof.
  apply (load_data_row_count sample_csv (rel "messages.csv") (rel "categories.csv")
           sample_messages sample_categories w0 0%nat);
    [reflexivity|reflexivity|vm_compute; reflexivity| |];
    (apply NoDup_cons; split;
     [rewrite list_elem_of_singleton; discriminate|apply NoDup_singleton]).
Defined.

(** C3, the claim as stated fails: the categories file knows one of the two
    messages; the join has one row, the minimum of the two row counts, and
    the two id sets differ. *)
Lemma load_data_count_subset :
  exists l w' t,
    load_data sample_csv (rel "messages.csv") (rel "one.csv") w0 = (Ok l, w') /\
    heap w' !! l = Some t /\
    NoDup (ids sample_messages) /\
    NoDup (ids categories_one) /\
    length (data t) =
      Nat.min (length (data sample_messages)) (length (data categories_one)) /\
    ~ (forall v, v ∈ ids sample_messages <-> v ∈ ids categories_one).
Proof.
  eexists _, _, _.
  split_and!; [vm_compute; reflexivity|reflexivity| | |reflexivity|].
  - apply NoDup_cons. split; [|apply NoDup_singleton].
    rewrite list_elem_of_singleton. discriminate.
  - apply NoDup_singleton.
  - intros H. specialize (H (VInt 2)). cbn in H.
    rewrite !elem_of_cons, !elem_of_nil in H.
    destruct (proj1 H) as [|[]]; [by right; left|done].
Qed.

(** With an id repeated on both sides the join pairs every occurrence with
    every occurrence, and has more rows than either table. *)
Lemma load_data_repeated_ids :
  exists l w' t,
    load_data sample_csv (rel "messages_twice.csv") (rel "categories_twice.csv") w0
      = (Ok l, w') /\
    heap w' !! l = Some t /\
    length (data t) = 4%nat /\
    Nat.min (length (data messages_twice)) (length (data categories_twice)) = 2%nat.
Proof.
  eexists _, _, _.
  split_and!; [vm_compute; reflexivity|reflexivity|reflexivity|reflexivity].
Qed.

(** ** Labels and positions *)

Lemma elem_of_positions_from i c cols j :
  j ∈ positions_from i c cols <->
  (i <= j)%nat /\ cols !! (j - i)%nat = Some c.
Proof.
  revert i. induction cols as [|c' cols IH]; intros i; simpl.
  - rewrite elem_of_nil. by intros; split; [|intros [_ ?]].
  - assert (Hrest : j ∈ positions_from (S i) c cols <->
              (i < j)%nat /\ (c' :: cols) !! (j - i)%nat = Some c).
    { rewrite IH. split.
      - intros [Hle Hlk]. split; [lia|].
        replace (j - i)%nat with (S (j - S i)) by lia. done.
      - intros [Hlt Hlk]. split; [lia|].
        replace (j - i)%nat with (S (j - S i)) in Hlk by lia. done. }
    destruct (String.eqb c' c) eqn:Hc.
    + apply String.eqb_eq in Hc as ->. rewrite elem_of_cons, Hrest. split.
      * intros [->|[Hlt Hlk]]; [|split; [lia|done]].
        split; [lia|]. by rewrite Nat.sub_diag.
      * intros [Hle Hlk]. destruct (decide (j = i)) as [|Hne]; [by left|].
        right. split; [lia|done].
    + apply String.eqb_neq in Hc. rewrite Hrest. split.
      * intros [Hlt Hlk]. split; [lia|done].
      * intros [Hle Hlk]. split; [|done].
        destruct (decide (j = i)) as [->|]; [|lia].
        rewrite Nat.sub_diag in Hlk. simpl in Hlk. congruence.
Qed.

Lemma elem_of_positions c cols j :
  j ∈ positions c cols <-> cols !! j = Some c.
Proof.
  unfold positions. rewrite elem_of_positions_from, Nat.sub_0_r.
  split; [by intros [_ ?]|]. intros ?. split; [lia|done].
Qed.

Lemma positions_from_nil i c cols :
  c ∉ cols -> positions_from i c cols = [].
Proof.
  revert i. induction cols as [|c' cols IH]; intros i Hc; simpl; [done|].
  apply not_elem_of_cons in Hc as [Hne Hc].
  destruct (String.eqb c' c) eqn:Heq; [|by apply IH].
  apply String.eqb_eq in Heq. congruence.
Qed.

Lemma positions_from_app i c a b :
  positions_from i c (a ++ b) =
  positions_from i c a ++ positions_from (i + length a) c b.
Proof.
  revert i. induction a as [|c' a IH]; intros i; simpl.
  - by rewrite Nat.add_0_r.
  - rewrite IH. replace (S i + length a)%nat with (i + S (length a))%nat by lia.
    by destruct (String.eqb c' c).
Qed.

Lemma remove_at_lookup {A : Type} (l : list A) j k :
  remove_at j l !! k = l !! (if decide (k < j)%nat then k else S k).
Proof.
  revert j k. induction l as [|x l IH]; intros j k.
  - by destruct j, (decide _).
  - destruct j as [|j]; simpl; [done|].
    destruct k as [|k]; simpl; [done|].
    rewrite IH. destruct (decide (k < j)%nat), (decide (S k < S j)%nat);
      try done; lia.
Qed.

Lemma elem_of_remove_at {A : Type} (l : list A) j x :
  x ∈ remove_at j l -> x ∈ l.
Proof.
  intros [k Hk]%list_elem_of_lookup. rewrite remove_at_lookup in Hk.
  by eapply list_elem_of_lookup_2.
Qed.

Lemma elem_of_remove_at_ne {A : Type} (l : list A) j x y :
  l !! j = Some y -> x <> y -> x ∈ l -> x ∈ remove_at j l.
Proof.
  intros Hj Hne [k Hk]%list_elem_of_lookup.
  assert (k <> j) by (intros ->; congruence).
  apply list_elem_of_lookup.
  destruct (decide (k < j)%nat).
  - exists k. rewrite remove_at_lookup. by rewrite decide_True.
  - exists (k - 1)%nat. rewrite remove_at_lookup.
    rewrite decide_False by lia. by replace (S (k - 1)) with k by lia.
Qed.

(** Once the only column with a label is removed, no column carries it. *)
Lemma remove_only_position c cols j :
  positions c cols = [j] -> c ∉ remove_at j cols.
Proof.
  intros Hpos [k Hk]%list_elem_of_lookup. rewrite remove_at_lookup in Hk.
  apply elem_of_positions in Hk. rewrite Hpos in Hk.
  apply list_elem_of_singleton in Hk. destruct (decide (k < j)%nat); lia.
Qed.

Lemma cell_app_l j (r r' : list value) :
  (j < length r)%nat -> cell j (r ++ r') = cell j r.
Proof. intros Hj. unfold cell. by apply app_nth1. Qed.

Lemma filter_none {A : Type} (P : A -> Prop) `{forall x, Decision (P x)}
    (l : list A) :
  (forall x, x ∈ l -> ~ P x) -> filter P l = [].
Proof.
  induction l as [|x l IH]; intros Hall; [done|].
  rewrite filter_cons_False by (apply Hall; by left).
  apply IH. intros y Hy. apply Hall. by right.
Qed.

Lemma add_suffix_nil suffix cols : map (add_suffix [] suffix) cols = cols.
Proof.
  induction cols as [|c cols IH]; simpl; [done|]. by rewrite IH.
Qed.

(** C7, as amended: the rows of the result are the pairs of a messages row
    and a categories row with equal ids, the id cell kept once; so the id
    of every result row is present in both inputs, an id present in one
    input only contributes no row, and every id present in both has a row.
    When [id] is the only label the inputs share, the columns are those of
    messages followed by those of categories without [id]: the union of
    the inputs' columns, with [id] once. *)
Theorem load_data_inner_join read_csv mp cp m c w l w' :
  read_csv mp = Ok m ->
  read_csv cp = Ok c ->
  wf m ->
  load_data read_csv mp cp w = (Ok l, w') ->
  exists t lj rj,
    heap w' !! l = Some t /\
    positions "id" (columns m) = [lj] /\
    positions "id" (columns c) = [rj] /\
    (forall r, r ∈ data t <->
       exists lr rr, lr ∈ data m /\ rr ∈ data c /\
         cell rj rr = cell lj lr /\ r = lr ++ remove_at rj rr) /\
    (forall r, r ∈ data t -> cell lj r ∈ ids m /\ cell lj r ∈ ids c) /\
    (forall v, v ∈ ids m -> v ∈ ids c -> exists r, r ∈ data t /\ cell lj r = v) /\
    ((forall x, x ∈ columns m -> x ∈ columns c -> x = "id") ->
     columns t = columns m ++ remove_at rj (columns c) /\
     (forall x, x ∈ columns t <-> x ∈ columns m \/ x ∈ columns c) /\
     positions "id" (columns t) = [lj]).
Proof.
  intros Hm Hc [_ Hwf] Hload.
  destruct (load_data_ok _ _ _ _ _ _ _ _ Hm Hc Hload) as (t & Hmerge & Ht & _).
  destruct (merge_ok _ _ _ _ Hmerge) as (lj & rj & Hlj & Hrj & Hdata & _ & Hcols).
  exists t, lj, rj.
  rewrite (ids_column _ _ Hlj), (ids_column _ _ Hrj).
  assert (Hljlt : (lj < length (columns m))%nat).
  { eapply lookup_lt_Some, elem_of_positions. rewrite Hlj. by left. }
  assert (Hkey : forall lr x, lr ∈ data m -> cell lj (lr ++ x) = cell lj lr).
  { intros lr x Hlr. apply cell_app_l.
    by rewrite (proj1 (Forall_forall _ _) Hwf lr Hlr). }
  assert (Hrows : forall r, r ∈ data t <->
            exists lr rr, lr ∈ data m /\ rr ∈ data c /\
              cell rj rr = cell lj lr /\ r = lr ++ remove_at rj rr).
  { intros r. rewrite Hdata. apply elem_of_inner_join. }
  split_and!; try done.
  - intros r (lr & rr & Hlr & Hrr & Heq & ->)%Hrows.
    rewrite (Hkey lr _ Hlr). split.
    + apply list_elem_of_In, in_map_iff. exists lr.
      split; [done|by apply list_elem_of_In].
    + rewrite <- Heq. apply list_elem_of_In, in_map_iff. exists rr.
      split; [done|by apply list_elem_of_In].
  - intros v Hvm Hvc.
    apply list_elem_of_In, in_map_iff in Hvm as (lr & <- & Hlr).
    apply list_elem_of_In, in_map_iff in Hvc as (rr & Heq & Hrr).
    apply list_elem_of_In in Hlr, Hrr.
    exists (lr ++ remove_at rj rr). split; [|by apply Hkey].
    apply Hrows. by exists lr, rr.
  - intros Honly.
    assert (Hover : filter (fun x => x ∈ remove_at rj (columns c)) (columns m) = []).
    { apply filter_none. intros x Hx Hin.
      pose proof (Honly x Hx (elem_of_remove_at _ _ _ Hin)) as ->.
      by apply (remove_only_position _ _ _ Hrj). }
    cbn zeta in Hcols. rewrite Hover, !add_suffix_nil in Hcols.
    rewrite Hcols. split_and!; [done| |].
    + intros x. rewrite elem_of_app. split.
      * intros [?|?%elem_of_remove_at]; tauto.
      * intros [?|Hx]; [by left|].
        destruct (decide (x = "id")) as [->|Hne].
        -- left. eapply list_elem_of_lookup_2, elem_of_positions.
           rewrite Hlj. by left.
        -- right. eapply elem_of_remove_at_ne; [|exact Hne|done].
           apply elem_of_positions. rewrite Hrj. by left.
    + unfold positions in *. rewrite positions_from_app, Hlj.
      rewrite positions_from_nil; [done|].
      by apply (remove_only_position _ _ _ Hrj).
Qed.

Lemma load_data_inner_join_witness :
  exists t lj rj,
    heap (snd (load_data sample_csv (rel "messages.csv") (rel "categories.csv") w0))
      !! 0%nat = Some t /\
    positions "id" (columns sample_messages) = [lj] /\
    positions "id" (columns sample_categories) = [rj] /\
    (forall r, r ∈ data t <->
       exists lr rr, lr ∈ data sample_messages /\ rr ∈ data sample_categories /\
         cell rj rr = cell lj lr /\ r = lr ++ remove_at rj rr) /\
    (forall r, r ∈ data t ->
       cell lj r ∈ ids sample_messages /\ cell lj r ∈ ids sample_categories) /\
    (forall v, v ∈ ids sample_messages -> v ∈ ids sample_categories ->
       exists r, r ∈ data t /\ cell lj r = v) /\
    ((forall x, x ∈ columns sample_messages -> x ∈ columns sample_categories ->
        x = "id") ->
     columns t = columns sample_messages ++ remove_at rj (columns sample_categories) /\
     (forall x, x ∈ columns t <->
        x ∈ columns sample_messages \/ x ∈ columns sample_categories) /\
     positions "id" (columns t) = [lj]).
Proof.
  apply (load_data_inner_join sample_csv (rel "messages.csv") (rel "categories.csv")
           sample_messages sample_categories w0 0%nat);
    [reflexivity|reflexivity| |vm_compute; reflexivity].
  split; [reflexivity|]. by repeat constructor.
Defined.

(** The sample inputs share no label but [id]. *)
Lemma sample_share_only_id x :
  x ∈ columns sample_messages -> x ∈ columns sample_categories -> x = "id".
Proof.
  cbn. rewrite !elem_of_cons, !elem_of_nil.
  intros [->|[->|[]]] [?|[?|[]]]; done.
Qed.

(** C7, the claim as stated fails: both inputs have a column [genre]; the
    result has [genre_x] and [genre_y] and no column [genre], so its
    columns are not the union of the inputs' columns. *)
Lemma load_data_shared_column :
  exists l w' t,
    load_data sample_csv (rel "messages_genre.csv") (rel "categories_genre.csv") w0
      = (Ok l, w') /\
    heap w' !! l = Some t /\
    columns t = ["id"; "message"; "genre_x"; "categories"; "genre_y"] /\
    ("genre" ∈ columns messages_genre) /\
    ("genre" ∈ columns categories_genre) /\
    ("genre" ∉ columns t).
Proof.
  eexists _, _, _.
  split_and!; [vm_compute; reflexivity|reflexivity|reflexivity| | |];
    cbn; rewrite !elem_of_cons, ?elem_of_nil; [tauto|tauto|].
  intros [|[|[|[|[|[]]]]]]; done.
Qed.

(** ** The whole run *)

(** The end-to-end scenario of the specification: two messages and their
    categories go through the three stages and end in the table [messages]
    of the database file. *)
Example main_end_to_end :
  exists w',
    main sample_csv (rel "messages.csv") (rel "categories.csv") (rel "d.db") w0
      = (Ok tt, w') /\
    files w' !! "d.db" =
      Some {[ "messages" := {| tcolumns := ["id"; "message"; "related"; "offer"];
                               trows := [[VInt 1; VStr "help"; VInt 1; VInt 0];
                                         [VInt 2; VStr "ok"; VInt 1; VInt 0]] |} ]} /\
    log w' = [LogLoading "messages.csv" "categories.csv"; LogCleaning;
              LogPercentage 0 2; LogRemoving; LogNumber 2;
              LogSaving "d.db"; LogSaved].
Proof.
  eexists. split; [vm_compute; reflexivity|]. split; [|reflexivity].
  by vm_compute.
Qed.

(** * Further properties of the three stages *)

(** ** load_data: failures, the new object, the order of the rows *)

Lemma positions_from_unique i c cols :
  NoDup cols ->
  positions_from i c cols = [] \/ exists j, positions_from i c cols = [j].
Proof.
  revert i. induction cols as [|c' cols IH]; intros i Hnd; simpl; [by left|].
  apply NoDup_cons in Hnd as [Hnot Hnd].
  destruct (String.eqb c' c) eqn:Hc; [|by apply IH].
  apply String.eqb_eq in Hc as ->. right. exists i.
  by rewrite positions_from_nil.
Qed.

(** When one of the parsed tables has no [id] column, [load_data] raises
    [KeyError] and leaves the world as it was. The labels of the categories
    table are distinct, as [read_csv] makes them. *)
Theorem load_data_missing_id read_csv mp cp m c w :
  read_csv mp = Ok m ->
  read_csv cp = Ok c ->
  NoDup (columns c) ->
  "id" ∉ columns m \/ "id" ∉ columns c ->
  load_data read_csv mp cp w = (Raise KeyError, w).
Proof.
  intros Hm Hc Hnd Hid. rewrite load_data_run, Hm, Hc.
  unfold merge, key_position.
  destruct (positions_from_unique 0 "id" (columns c) Hnd) as [Hr|[rj Hr]];
    unfold positions; rewrite Hr; [done|].
  cbn [mbind result_bind].
  destruct Hid as [Hid|Hid].
  - by rewrite (positions_from_nil 0 "id" (columns m) Hid).
  - by rewrite (positions_from_nil 0 "id" (columns c) Hid) in Hr.
Qed.

Lemma load_data_missing_id_witness :
  load_data more_csv (rel "no_id.csv") (rel "categories.csv") w0 =
  (Raise KeyError, w0).
Proof.
  apply (load_data_missing_id more_csv (rel "no_id.csv") (rel "categories.csv")
           messages_no_id sample_categories w0); [reflexivity|reflexivity| |].
  - apply NoDup_cons. split; [|apply NoDup_singleton].
    rewrite list_elem_of_singleton. discriminate.
  - left. cbn. rewrite !elem_of_cons, elem_of_nil. intros [|[|[]]]; discriminate.
Defined.

Lemma length_remove_at {A : Type} (l : list A) j :
  (j < length l)%nat -> length (remove_at j l) = (length l - 1)%nat.
Proof.
  revert j. induction l as [|x l IH]; intros j Hj; simpl in *; [lia|].
  destruct j as [|j]; simpl; [lia|]. rewrite IH by lia.
  destruct l; simpl in *; lia.
Qed.

Lemma positions_lt c cols j :
  positions c cols = [j] -> (j < length cols)%nat.
Proof.
  intros H. eapply lookup_lt_Some, elem_of_positions. rewrite H. by left.
Qed.

(** A successful [load_data] only adds an object: the result is a new
    reference, every earlier object, the log and the database files are as
    before. The new table is well formed when the parsed tables are: its
    rows are labelled 0, 1, 2, ... and each has one cell per column, the
    columns of both inputs with [id] counted once. *)
Theorem load_data_new_table read_csv mp cp m c w l w' :
  read_csv mp = Ok m ->
  read_csv cp = Ok c ->
  wf m ->
  wf c ->
  load_data read_csv mp cp w = (Ok l, w') ->
  heap w !! l = None /\
  (forall k, k <> l -> heap w' !! k = heap w !! k) /\
  log w' = log w /\
  files w' = files w /\
  exists t,
    heap w' !! l = Some t /\
    wf t /\
    index t = range_index (length (data t)) /\
    length (columns t) = (length (columns m) + length (columns c) - 1)%nat.
Proof.
  intros Hm Hc [_ Hwm] [_ Hwc] Hload.
  destruct (load_data_ok _ _ _ _ _ _ _ _ Hm Hc Hload) as (t & Hmerge & Ht & Hfresh).
  rewrite load_data_run, Hm, Hc, Hmerge in Hload. inversion Hload; subst l w'.
  cbn [heap log files] in *.
  destruct (merge_ok _ _ _ _ Hmerge) as (lj & rj & Hlj & Hrj & Hdata & Hidx & Hcols).
  pose proof (positions_lt _ _ _ Hlj) as Hljlt.
  pose proof (positions_lt _ _ _ Hrj) as Hrjlt.
  assert (Hlen : length (columns t) =
                 (length (columns m) + length (columns c) - 1)%nat).
  { rewrite Hcols. cbn zeta.
    rewrite length_app, !length_map, length_remove_at by done. lia. }
  split_and!; try done.
  - intros k Hk. destruct (decide (k < length (heap w))%nat).
    + by rewrite lookup_app_l.
    + rewrite !lookup_ge_None_2; [done|lia|]. rewrite length_app. simpl. lia.
  - exists t. split_and!; try done. split.
    + rewrite Hidx. unfold range_index. by rewrite length_map, length_seq.
    + apply Forall_forall. intros r Hr. rewrite Hdata in Hr.
      apply elem_of_inner_join in Hr as (lr & rr & Hlr & Hrr & _ & ->).
      rewrite Hlen, length_app.
      rewrite (proj1 (Forall_forall _ _) Hwm lr Hlr).
      rewrite length_remove_at;
        rewrite (proj1 (Forall_forall _ _) Hwc rr Hrr); [lia|done].
Qed.

Lemma sample_messages_wf : wf sample_messages.
Proof. split; [reflexivity|by repeat constructor]. Qed.

Lemma sample_categories_wf : wf sample_categories.
Proof. split; [reflexivity|by repeat constructor]. Qed.

Lemma load_data_new_table_witness :
  exists t,
    heap (snd (load_data sample_csv (rel "messages.csv") (rel "categories.csv") w0))
      !! 0%nat = Some t /\
    wf t /\
    index t = range_index (length (data t)) /\
    length (columns t) =
      (length (columns sample_messages) + length (columns sample_categories) - 1)%nat.
Proof.
  refine (proj2 (proj2 (proj2 (proj2
    (load_data_new_table sample_csv (rel "messages.csv") (rel "categories.csv")
       sample_messages sample_categories w0 0%nat
       (snd (load_data sample_csv (rel "messages.csv") (rel "categories.csv") w0))
       _ _ sample_messages_wf sample_categories_wf _)))));
    [reflexivity|reflexivity|vm_compute; reflexivity].
Defined.

Lemma inner_join_left_sublist lj rj (lrows rrows : list (list value)) n :
  NoDup (column rj rrows) ->
  Forall (fun r => length r = n) lrows ->
  sublist (map (take n) (inner_join lj rj lrows rrows)) lrows.
Proof.
  intros Hnd Hlen. unfold inner_join.
  induction Hlen as [|lr lrows Hlr _ IH]; [constructor|].
  cbn [flat_map]. rewrite map_app, map_map.
  pose proof (matches_unique_key rj rrows (cell lj lr) Hnd) as Hone.
  destruct (filter (fun rr => cell rj rr = cell lj lr) rrows) as [|rr [|? ?]].
  - by apply sublist_cons.
  - cbn [map app].
    replace (take n (lr ++ remove_at rj rr)) with lr
      by (rewrite <- Hlr; by rewrite take_app_length).
    by apply sublist_skip.
  - simpl in Hone. by destruct (decide _).
Qed.

(** With no id repeated within either table, the join keeps the messages
    in the order of their file and takes each at most once: the messages
    part of the result rows is a subsequence of the messages rows. *)
Theorem load_data_keeps_order read_csv mp cp m c w l w' :
  read_csv mp = Ok m ->
  read_csv cp = Ok c ->
  wf m ->
  NoDup (ids m) ->
  NoDup (ids c) ->
  load_data read_csv mp cp w = (Ok l, w') ->
  exists t,
    heap w' !! l = Some t /\
    sublist (map (take (length (columns m))) (data t)) (data m).
Proof.
  intros Hm Hc [_ Hwf] _ Hnc Hload.
  destruct (load_data_ok _ _ _ _ _ _ _ _ Hm Hc Hload) as (t & Hmerge & Ht & _).
  destruct (merge_ok _ _ _ _ Hmerge) as (lj & rj & _ & Hrj & Hdata & _).
  exists t. split; [done|]. rewrite Hdata.
  apply inner_join_left_sublist; [|done].
  by rewrite <- (ids_column _ _ Hrj).
Qed.

Lemma sample_ids_NoDup :
  NoDup (ids sample_messages) /\ NoDup (ids sample_categories).
Proof.
  split; (apply NoDup_cons; split;
          [rewrite list_elem_of_singleton; discriminate|apply NoDup_singleton]).
Qed.

Lemma load_data_keeps_order_witness :
  exists t,
    heap (snd (load_data sample_csv (rel "messages.csv") (rel "categories.csv") w0))
      !! 0%nat = Some t /\
    sublist (map (take (length (columns sample_messages))) (data t))
            (data sample_messages).
Proof.
  apply (load_data_keeps_order sample_csv (rel "messages.csv")
           (rel "categories.csv") sample_messages sample_categories w0 0%nat);
    [reflexivity|reflexivity|exact sample_messages_wf
    |exact (proj1 sample_ids_NoDup)|exact (proj2 sample_ids_NoDup)
    |vm_compute; reflexivity].
Defined.

(** ** clean_data: its failures *)

Lemma expand_categories_missing df :
  "categories" ∉ columns df -> expand_categories df = Raise AttributeError.
Proof.
  intros Hno. unfold expand_categories, positions.
  by rewrite positions_from_nil.
Qed.

(** On a table without a [categories] column [clean_data] raises
    [AttributeError] and changes nothing. *)
Theorem clean_data_missing_categories w l df :
  heap w !! l = Some df ->
  "categories" ∉ columns df ->
  clean_data l w = (Raise AttributeError, w).
Proof.
  intros Hl Hno. rewrite (clean_data_run w l df Hl).
  by rewrite expand_categories_missing.
Qed.

Lemma clean_data_missing_categories_witness :
  clean_data 0%nat (world_of [sample_messages]) =
  (Raise AttributeError, world_of [sample_messages]).
Proof.
  apply (clean_data_missing_categories (world_of [sample_messages]) 0%nat
           sample_messages); [reflexivity|].
  cbn. rewrite !elem_of_cons, elem_of_nil. intros [|[|[]]]; discriminate.
Defined.

(** Whatever the table, a failing [clean_data] raises one of
    [AttributeError], [IndexError], [ValueError] and [OverflowError], and has
    then changed neither the caller's table nor anything else: the in-place
    removal of the column comes after the last step that can fail. *)
Theorem clean_data_failure w l df e w' :
  heap w !! l = Some df ->
  clean_data l w = (Raise e, w') ->
  w' = w /\
  (e = AttributeError \/ e = IndexError \/ e = ValueError \/ e = OverflowError).
Proof.
  intros Hl. rewrite (clean_data_run w l df Hl).
  destruct (expand_categories df) as [[labels ints]|e'] eqn:He.
  { apply expand_categories_nonempty in He. cbn zeta.
    by destruct (length (data df)). }
  intros [= <- <-]. split; [done|].
  unfold expand_categories in He.
  destruct (positions "categories" (columns df)) as [|j [|? ?]];
    try (inversion He; tauto).
  unfold str_accessor in He.
  destruct (column j (data df)) as [|c cs] eqn:Hc; [inversion He; tauto|].
  destruct (existsb is_str (c :: cs)); [|inversion He; tauto].
  cbn [mbind result_bind] in He.
  destruct (mapM name_of _) as [?|e1] eqn:H1.
  - cbn [mbind result_bind] in He.
    destruct (mapM (mapM value_of) _) as [?|e2] eqn:H2.
    + cbn [mbind result_bind] in He.
      destruct (mapM (mapM astype_int) _) as [?|e3] eqn:H3; [done|].
      inversion He; subst e3.
      apply mapM2_raise in H3 as (? & x & _ & _ & Hx).
      destruct x as [?|s|]; simpl in Hx; [done| |inversion Hx; tauto].
      destruct (Py.int s); [|inversion Hx; tauto].
      destruct (_ && _); [done|inversion Hx; tauto].
    + inversion He; subst e2.
      apply mapM2_raise in H2 as (? & x & _ & _ & Hx).
      destruct x as [?|s|]; simpl in Hx; try (inversion Hx; tauto).
      destruct (Py.split "-" s !! 1%nat); [done|inversion Hx; tauto].
  - inversion He; subst e1.
    apply mapM_raise in H1 as (x & _ & Hx).
    destruct x; simpl in Hx; try done; inversion Hx; tauto.
Qed.

Lemma clean_data_failure_witness :
  clean_data 0%nat (world_of [negative_value]) =
    (Raise ValueError, world_of [negative_value]) /\
  world_of [negative_value] = world_of [negative_value] /\
  (ValueError = AttributeError \/ ValueError = IndexError \/
   ValueError = ValueError \/ ValueError = OverflowError).
Proof.
  split; [vm_compute; reflexivity|].
  apply (clean_data_failure (world_of [negative_value]) 0%nat negative_value
           ValueError (world_of [negative_value]));
    [reflexivity|vm_compute; reflexivity].
Defined.

(** ** clean_data: what a successful call leaves *)

(** [clean_data] cannot be run twice on the same table: after a successful
    call the caller's table has lost its [categories] column, so a second
    call on it raises [AttributeError] (and changes nothing). *)
Theorem clean_data_not_rerunnable w l df l' w' :
  heap w !! l = Some df ->
  clean_data l w = (Ok l', w') ->
  clean_data l w' = (Raise AttributeError, w').
Proof.
  intros Hl H.
  destruct (clean_data_ok _ _ _ _ _ Hl H) as (labels & ints & _ & -> & Hh & _).
  pose proof (lookup_lt_Some _ _ _ Hl) as Hlt.
  assert (Hl' : heap w' !! l = Some (drop_column "categories" df)).
  { rewrite Hh, list_lookup_insert_ne by lia.
    rewrite lookup_app_l by (rewrite length_insert; lia).
    by rewrite list_lookup_insert_eq. }
  rewrite (clean_data_run w' l _ Hl').
  rewrite expand_categories_missing; [done|].
  apply drop_cells_not_elem_of.
Qed.

Lemma clean_data_not_rerunnable_witness :
  clean_data 0%nat cleaned_world = (Raise AttributeError, cleaned_world).
Proof.
  apply (clean_data_not_rerunnable (world_of [sample_joined]) 0%nat
           sample_joined 1%nat cleaned_world);
    [reflexivity|vm_compute; reflexivity].
Defined.

Lemma count_true_le (mask : list bool) : (count_true mask <= length mask)%nat.
Proof. apply length_filter. Qed.

Lemma duplicated_first_kept {A : Type} `{EqDecision A} (x : A) (l : list A) :
  (count_true (duplicated (x :: l)) <= length l)%nat.
Proof.
  unfold duplicated. cbn [duplicated_from].
  rewrite bool_decide_eq_false_2 by apply not_elem_of_nil.
  unfold count_true. rewrite filter_cons_False by (by intros ?).
  rewrite <- (length_duplicated_from [x] l). apply length_filter.
Qed.

(** The log of a successful [clean_data]: three entries are appended, the
    percentage (as the number of duplicated rows over the number of input
    rows), the removal notice and the number of output rows. Fewer rows are
    duplicated than the input has, so the output has at least one row, and
    it has as many rows as the input less the duplicated ones. *)
Theorem clean_data_log w l df l' w' :
  heap w !! l = Some df ->
  clean_data l w = (Ok l', w') ->
  exists d out,
    heap w' !! l' = Some out /\
    log w' = log w ++ [LogPercentage d (length (data df)); LogRemoving;
                       LogNumber (length (data out))] /\
    (d < length (data df))%nat /\
    length (data out) = (length (data df) - d)%nat /\
    (1 <= length (data out) <= length (data df))%nat.
Proof.
  intros Hl H.
  pose proof H as Hrun. rewrite (clean_data_run w l df Hl) in Hrun.
  destruct (expand_categories df) as [[labels ints]|] eqn:He; [|done].
  cbn zeta in Hrun.
  pose proof (expanded_table_length df labels ints) as Hlen.
  set (full := expanded_table df labels ints) in *.
  destruct (length (data df)) as [|n] eqn:Hn; [done|].
  inversion Hrun; subst l' w'; clear Hrun. cbn [heap log].
  assert (Hsum : (length (data (drop_duplicates full)) +
                  count_true (duplicated (data full)) = S n)%nat).
  { rewrite <- Hlen. apply select_negb_length, length_duplicated_from. }
  assert (Hd : (count_true (duplicated (data full)) <= n)%nat).
  { destruct (data full) as [|r rows]; [done|].
    pose proof (duplicated_first_kept r rows). simpl in Hlen. lia. }
  exists (count_true (duplicated (data full))), (drop_duplicates full).
  split_and!; try lia.
  - apply list_lookup_insert_eq. rewrite length_app, length_insert. simpl. lia.
  - rewrite <- Hlen. reflexivity.
Qed.

Lemma clean_data_log_witness :
  exists d out,
    heap cleaned_world !! 1%nat = Some out /\
    log cleaned_world =
      log (world_of [sample_joined]) ++
      [LogPercentage d (length (data sample_joined)); LogRemoving;
       LogNumber (length (data out))] /\
    (d < length (data sample_joined))%nat /\
    length (data out) = (length (data sample_joined) - d)%nat /\
    (1 <= length (data out) <= length (data sample_joined))%nat.
Proof.
  apply (clean_data_log (world_of [sample_joined]) 0%nat sample_joined 1%nat
           cleaned_world); [reflexivity|vm_compute; reflexivity].
Defined.

Lemma select_length_same {A B : Type} (mask : list bool) (l : list A) (k : list B) :
  length l = length k -> length (select mask l) = length (select mask k).
Proof.
  revert l k. induction mask as [|b mask IH]; intros [|x l] [|y k]; simpl;
    try done.
  intros [= Hlen]. destruct b; simpl; by rewrite (IH l k).
Qed.

(** Well-formedness is kept: when every row of the input has one cell per
    column and one label, so has every row of the output, and so has the
    caller's table after the in-place removal. The output keeps the labels
    of the rows it keeps (the index is not renumbered): its index is a
    subsequence of the input's, and the output rows are the rows of the
    expanded table that equal no earlier row, in their order, each under
    the label its input row had. *)
Theorem clean_data_well_formed w l df l' w' :
  heap w !! l = Some df ->
  wf df ->
  clean_data l w = (Ok l', w') ->
  exists out arg,
    heap w' !! l' = Some out /\
    heap w' !! l = Some arg /\
    wf out /\
    wf arg /\
    sublist (index out) (index df) /\
    exists labels ints ks,
      expand_categories df = Ok (labels, ints) /\
      StronglySorted Nat.lt ks /\
      (forall i, i ∈ ks <->
         exists r, data (expanded_table df labels ints) !! i = Some r /\
                   forall k, (k < i)%nat ->
                     data (expanded_table df labels ints) !! k <> Some r) /\
      Forall2 (fun i a => index df !! i = Some a) ks (index out) /\
      Forall2 (fun i r => data (expanded_table df labels ints) !! i = Some r)
              ks (data out).
Proof.
  intros Hl [Hidx Hrowlen] H.
  destruct (clean_data_ok _ _ _ _ _ Hl H) as (labels & ints & He & -> & Hh & _).
  pose proof (lookup_lt_Some _ _ _ Hl) as Hlt.
  destruct (expanded_table_rows _ _ _ He)
    as (j & s0 & r0 & rest & _ & _ & _ & -> & Hrows).
  set (full := expanded_table df (map prefix_of (Py.split ";" s0)) ints) in *.
  exists (drop_duplicates full), (drop_column "categories" df).
  split_and!.
  - rewrite Hh. apply list_lookup_insert_eq.
    rewrite length_app, length_insert. simpl. lia.
  - rewrite Hh, list_lookup_insert_ne by lia.
    rewrite lookup_app_l by (rewrite length_insert; lia).
    by rewrite list_lookup_insert_eq.
  - split.
    + cbn [drop_duplicates index data]. apply select_length_same.
      unfold full. rewrite expanded_table_length. exact Hidx.
    + apply Forall_forall. intros r Hr. cbn [drop_duplicates data columns] in *.
      apply select_elem_of, list_elem_of_lookup in Hr as [i Hi].
      destruct (Forall2_lookup_r _ _ _ _ _ Hrows Hi)
        as (ri & Hri & s & vs & _ & Hn & Hvs & ->).
      unfold full, expanded_table, concat_axis1, drop_column. cbn [columns].
      rewrite !length_app, length_map, <- Hn, (Forall2_length _ _ _ Hvs).
      f_equal. apply select_length_same.
      apply (proj1 (Forall_forall _ _) Hrowlen ri).
      by eapply list_elem_of_lookup_2.
  - split; cbn [drop_column index data columns].
    + by rewrite length_map.
    + apply Forall_forall. intros r Hr.
      apply list_elem_of_In, in_map_iff in Hr as (ri & <- & Hri).
      apply select_length_same.
      apply (proj1 (Forall_forall _ _) Hrowlen ri). by apply list_elem_of_In.
  - apply select_sublist.
  - destruct (drop_duplicates_positions full) as (ks & Hs & Hin & Hd & Hi).
    assert (Hidx' : length (index full) = length (data full))
      by (unfold full; rewrite expanded_table_length; exact Hidx).
    specialize (Hi Hidx').
    by exists (map prefix_of (Py.split ";" s0)), ints, ks.
Qed.

Lemma sample_joined_wf : wf sample_joined.
Proof. split; [reflexivity|by repeat constructor]. Qed.

Lemma clean_data_well_formed_witness :
  exists out arg,
    heap cleaned_world !! 1%nat = Some out /\
    heap cleaned_world !! 0%nat = Some arg /\
    wf out /\
    wf arg /\
    sublist (index out) (index sample_joined) /\
    exists labels ints ks,
      expand_categories sample_joined = Ok (labels, ints) /\
      StronglySorted Nat.lt ks /\
      (forall i, i ∈ ks <->
         exists r, data (expanded_table sample_joined labels ints) !! i = Some r /\
                   forall k, (k < i)%nat ->
                     data (expanded_table sample_joined labels ints) !! k <> Some r) /\
      Forall2 (fun i a => index sample_joined !! i = Some a) ks (index out) /\
      Forall2 (fun i r => data (expanded_table sample_joined labels ints) !! i = Some r)
              ks (data out).
Proof.
  apply (clean_data_well_formed (world_of [sample_joined]) 0%nat sample_joined
           1%nat cleaned_world);
    [reflexivity|exact sample_joined_wf|vm_compute; reflexivity].
Defined.

(** ** clean_data: the sign of the category values *)

Lemma split_piece_no_sep sep s p :
  p ∈ Py.split sep s -> ~ In sep (list_ascii_of_string p).
Proof.
  revert p. induction s as [|c s IH]; intros p; simpl.
  - rewrite list_elem_of_singleton. intros ->. simpl. tauto.
  - destruct (Ascii.eqb c sep) eqn:Hc.
    + rewrite elem_of_cons. intros [->|Hp]; [simpl; tauto|by apply IH].
    + apply Ascii.eqb_neq in Hc.
      pose proof (split_nonempty sep s) as Hne.
      destruct (Py.split sep s) as [|q qs]; [done|].
      rewrite elem_of_cons. intros [->|Hp].
      * simpl. intros [?|Hin]; [done|]. apply (IH q); [by left|done].
      * apply IH. by right.
Qed.

Lemma lstrip_In c l : In c (Py.lstrip l) -> In c l.
Proof.
  induction l as [|a l IH]; simpl; [done|].
  destruct (Py.is_space a); [by right; apply IH|done].
Qed.

Lemma strip_In c l : In c (Py.strip l) -> In c l.
Proof.
  unfold Py.strip. intros H%in_rev%lstrip_In%in_rev. by apply lstrip_In.
Qed.

Lemma digit_val_nonneg c d : Py.digit_val c = Some d -> (0 <= d)%Z.
Proof.
  unfold Py.digit_val. destruct (_ && _); [|done]. intros [= <-]. lia.
Qed.

Lemma digits_nonneg acc prev l z :
  (0 <= acc)%Z -> Py.digits acc prev l = Some z -> (0 <= z)%Z.
Proof.
  revert acc prev. induction l as [|c l IH]; intros acc prev Hacc; simpl.
  - destruct prev; [by intros [= <-]|done].
  - destruct (Py.digit_val c) as [d|] eqn:Hd.
    + apply IH. apply digit_val_nonneg in Hd. lia.
    + destruct (_ && _); [by apply IH|done].
Qed.

Lemma number_nonneg l z : Py.number l = Some z -> (0 <= z)%Z.
Proof.
  unfold Py.number. destruct (_ <? _)%Z; [done|]. by apply digits_nonneg.
Qed.

(** [int()] of a text without a minus sign is not negative. *)
Lemma int_nonneg s z :
  ~ In "-"%char (list_ascii_of_string s) -> Py.int s = Some z -> (0 <= z)%Z.
Proof.
  intros Hno. unfold Py.int.
  assert (Hno' : ~ In "-"%char (Py.strip (list_ascii_of_string s))).
  { intros H. by apply Hno, strip_In. }
  destruct (Py.strip (list_ascii_of_string s)) as [|a l]; [done|].
  destruct a as [[] [] [] [] [] [] [] []];
    first [by apply number_nonneg | destruct Hno'; by left].
Qed.

Lemma convert_rows_nonneg segs vs :
  Forall2 (fun segment v => convert segment = Ok v) segs vs ->
  exists zs, vs = map VInt zs /\ Forall (fun z => 0 <= z < 2 ^ 63)%Z zs.
Proof.
  induction 1 as [|seg v segs vs Hv _ (zs & -> & IH)].
  - by exists [].
  - apply convert_ok in Hv as (x & z & Hx & Hz & [_ Hhi] & ->).
    exists (z :: zs). split; [done|]. constructor; [|done].
    split; [|done]. apply (int_nonneg x); [|done].
    apply (split_piece_no_sep _ seg). by eapply list_elem_of_lookup_2.
Qed.

(** The category values [clean_data] stores are never negative: the piece
    it converts comes from a split on [-] and so holds no minus sign. Every
    output row is an input row without its [categories] cell followed by
    integers between 0 and 2^63 - 1. *)
Theorem clean_data_values_nonnegative w l df l' w' out r :
  heap w !! l = Some df ->
  clean_data l w = (Ok l', w') ->
  heap w' !! l' = Some out ->
  r ∈ data out ->
  exists ri zs,
    ri ∈ data df /\
    r = drop_cells "categories" (columns df) ri ++ map VInt zs /\
    Forall (fun z => 0 <= z < 2 ^ 63)%Z zs.
Proof.
  intros Hl H Hout Hr.
  destruct (clean_data_ok _ _ _ _ _ Hl H) as (labels & ints & He & -> & Hh & _).
  rewrite Hh, list_lookup_insert_eq in Hout
    by (rewrite length_app, length_insert; simpl; lia).
  inversion Hout; subst out. cbn [drop_duplicates data] in Hr.
  apply select_elem_of, list_elem_of_lookup in Hr as [i Hi].
  destruct (expanded_table_rows _ _ _ He)
    as (j & s0 & r0 & rest & _ & _ & _ & _ & Hrows).
  destruct (Forall2_lookup_r _ _ _ _ _ Hrows Hi)
    as (ri & Hri & s & vs & _ & _ & Hvs & ->).
  destruct (convert_rows_nonneg _ _ Hvs) as (zs & -> & Hzs).
  exists ri, zs. split_and!; try done. by eapply list_elem_of_lookup_2.
Qed.

Lemma clean_data_values_nonnegative_witness :
  exists ri zs,
    ri ∈ data sample_joined /\
    [VInt 1; VStr "help"; VInt 1; VInt 0] =
      drop_cells "categories" (columns sample_joined) ri ++ map VInt zs /\
    Forall (fun z => 0 <= z < 2 ^ 63)%Z zs.
Proof.
  apply (clean_data_values_nonnegative (world_of [sample_joined]) 0%nat
           sample_joined 1%nat cleaned_world sample_cleaned);
    [reflexivity|vm_compute; reflexivity|reflexivity|by left].
Defined.

(** ** save_data: what it touches *)



(** Two destinations with the same file name are one store: after a
    successful save to one, a save to the other fails and writes nothing,
    whatever directories the two paths name, with [ValueError] when the
    second table is one SQLite takes. *)
Theorem save_data_same_name w l df p q w1 l2 df2 :
  heap w !! l = Some df ->
  file_name (name p) = true ->
  name q = name p ->
  save_data l p w = (Ok tt, w1) ->
  heap w1 !! l2 = Some df2 ->
  (exists e, save_data l2 q w1 = (Raise e, w1)) /\
  (storable df2 = true -> save_data l2 q w1 = (Raise ValueError, w1)).
Proof.
  intros Hl Hn Hq Hsave Hl2.
  destruct (save_data_effect _ _ _ _ _ Hsave) as (_ & _ & _ & _ & _ & Hnew).
  destruct (Hnew eq_refl Hn) as (df' & _ & _ & Hst).
  rewrite <- Hq in Hn, Hst.
  destruct (save_data_exists _ _ _ _ _ Hl2 Hn Hst) as (e & He & Hv).
  split; [by exists e|]. intros Hs. by rewrite He, (Hv Hs).
Qed.

Lemma save_data_same_name_witness :
  path_str nested_db <> path_str other_dir_db /\
  save_data 0%nat other_dir_db
    (snd (save_data 0%nat nested_db (world_of [sample_cleaned]))) =
  (Raise ValueError, snd (save_data 0%nat nested_db (world_of [sample_cleaned]))).
Proof.
  split; [done|].
  refine (proj2 (save_data_same_name (world_of [sample_cleaned]) 0%nat
                   sample_cleaned nested_db other_dir_db _ 0%nat sample_cleaned
                   _ _ _ _ _) _);
    [reflexivity|reflexivity|reflexivity|vm_compute; reflexivity|reflexivity
    |reflexivity].
Defined.

(** A destination without a final component (the current directory, the
    root) gives the URL [sqlite:///], and one called [:memory:] the URL
    [sqlite:///:memory:]: both are SQLite's in-memory database. Nothing is
    stored, whatever the outcome, and with a table SQLite takes the call
    succeeds, also when repeated. *)
Theorem save_data_nowhere w l df p :
  heap w !! l = Some df ->
  name p = "" \/ name p = ":memory:" ->
  (exists r, save_data l p w = (r, w)) /\
  (storable df = true -> save_data l p w = (Ok tt, w)).
Proof.
  intros Hl Hn. unfold save_data.
  rewrite (bind_ok _ _ _ _ _ (deref_some _ _ _ Hl)), bind_lift.
  rewrite (create_engine_memory p Hn). cbn [to_sql].
  split; [by eexists|]. intros Hs.
  by rewrite (storable_store ∅ df Hs (lookup_empty _)).
Qed.

Lemma save_data_nowhere_witness :
  save_data 0%nat here (world_of [sample_cleaned]) =
  (Ok tt, world_of [sample_cleaned]).
Proof.
  refine (proj2 (save_data_nowhere (world_of [sample_cleaned]) 0%nat
                   sample_cleaned here _ _) _);
    [reflexivity|by left|reflexivity].
Defined.

(** ** main: the run as a whole *)


Lemma last_app_3 {A : Type} (l : list A) a b c :
  last (l ++ [a; b; c]) = Some c.
Proof.
  change (l ++ [a; b; c]) with (l ++ ([a; b] ++ [c])).
  by rewrite app_assoc, last_snoc.
Qed.



Lemma inner_join_no_common lj rj (lrows rrows : list (list value)) :
  (forall v, v ∈ column lj lrows -> v ∉ column rj rrows) ->
  inner_join lj rj lrows rrows = [].
Proof.
  intros Hno. destruct (inner_join lj rj lrows rrows) as [|r rs] eqn:Hj; [done|].
  assert (r ∈ inner_join lj rj lrows rrows) as Hr by (rewrite Hj; by left).
  apply elem_of_inner_join in Hr as (lr & rr & Hlr & Hrr & Heq & _).
  destruct (Hno (cell lj lr)).
  - apply list_elem_of_In, in_map_iff. exists lr.
    split; [done|by apply list_elem_of_In].
  - rewrite <- Heq. apply list_elem_of_In, in_map_iff. exists rr.
    split; [done|by apply list_elem_of_In].
Qed.

(** When the two files have no id in common the run does not store an
    empty table: it fails. Either the merge itself raises, or the join has
    no rows and [clean_data] raises [IndexError] (or [AttributeError] when
    there is not exactly one [categories] column); no database file is
    changed. *)
Theorem main_no_common_id read_csv mp cp dp m c w :
  read_csv mp = Ok m ->
  read_csv cp = Ok c ->
  (forall v, v ∈ ids m -> v ∉ ids c) ->
  exists e w',
    main read_csv mp cp dp w = (Raise e, w') /\
    files w' = files w /\
    (merge m c "id" = Raise e \/ e = IndexError \/ e = AttributeError).
Proof.
  intros Hm Hc Hno. unfold main.
  rewrite (bind_ok (logger_info _) _ w tt _ eq_refl).
  set (wa := {| heap := heap w;
                log := log w ++ [LogLoading (path_str mp) (path_str cp)];
                files := files w |}).
  pose proof (load_data_run read_csv mp cp wa) as Hload.
  rewrite Hm, Hc in Hload.
  destruct (merge m c "id") as [t|e] eqn:Hmerge.
  2: { exists e, wa. rewrite (bind_raise _ _ _ _ _ Hload). by split_and!; [| |left]. }
  rewrite (bind_ok _ _ _ _ _ Hload).
  rewrite (bind_ok (logger_info _) _ _ tt _ eq_refl).
  cbn [heap log files].
  set (wb := {| heap := heap wa ++ [t]; log := log wa ++ [LogCleaning];
                files := files wa |}).
  assert (Hl : heap wb !! length (heap wa) = Some t).
  { cbn [wb heap]. rewrite lookup_app_r by lia. by rewrite Nat.sub_diag. }
  assert (Hempty : data t = []).
  { destruct (merge_ok _ _ _ _ Hmerge) as (lj & rj & Hlj & Hrj & -> & _).
    apply inner_join_no_common.
    rewrite <- (ids_column _ _ Hlj), <- (ids_column _ _ Hrj). exact Hno. }
  assert (Hexp : expand_categories t = Raise IndexError \/
                 expand_categories t = Raise AttributeError).
  { unfold expand_categories.
    destruct (positions "categories" (columns t)) as [|j [|? ?]]; try by right.
    left. by rewrite Hempty. }
  pose proof (clean_data_run wb _ t Hl) as Hclean.
  destruct Hexp as [Hexp|Hexp]; rewrite Hexp in Hclean;
    rewrite (bind_raise _ _ _ _ _ Hclean); eexists _, wb;
    (split_and!; [reflexivity|reflexivity|tauto]).
Qed.

Lemma main_no_common_id_witness :
  exists e w',
    main more_csv (rel "messages.csv") (rel "strangers.csv") (rel "d.db") w0
      = (Raise e, w') /\
    files w' = files w0 /\
    (merge sample_messages categories_strangers "id" = Raise e \/
     e = IndexError \/ e = AttributeError).
Proof.
  apply (main_no_common_id more_csv (rel "messages.csv") (rel "strangers.csv")
           (rel "d.db") sample_messages categories_strangers w0);
    [reflexivity|reflexivity|].
  intros v. cbn. rewrite !elem_of_cons, !elem_of_nil.
  intros [->|[->|[]]] [|[|[]]]; discriminate.
Defined.




(** ** Inputs the stages reject *)

(** [clean_data] succeeds only on a table whose [categories] cells are all
    texts with as many segments as the first row's: a row with a missing
    cell, or with more or fewer segments, makes the call fail, and a failed
    call changes nothing. *)
Theorem clean_data_needs_equal_segments w l df j r0 rest r :
  heap w !! l = Some df ->
  positions "categories" (columns df) = [j] ->
  data df = r0 :: rest ->
  r ∈ data df ->
  (forall s s0, cell j r = VStr s -> cell j r0 = VStr s0 ->
     length (Py.split ";" s) <> length (Py.split ";" s0)) ->
  exists e, clean_data l w = (Raise e, w).
Proof.
  intros Hl Hj Hdata Hr Hbad.
  destruct (clean_data l w) as [[l'|e] w'] eqn:H.
  - exfalso.
    destruct (clean_data_ok _ _ _ _ _ Hl H) as (labels & ints & He & _).
    destruct (expanded_table_rows _ _ _ He)
      as (j' & s0 & r0' & rest' & Hj' & Hdata' & Hc0 & _ & Hrows).
    rewrite Hj in Hj'. inversion Hj'; subst j'.
    rewrite Hdata in Hdata'. inversion Hdata'; subst r0' rest'.
    apply list_elem_of_lookup in Hr as [i Hi].
    destruct (Forall2_lookup_l _ _ _ _ _ Hrows Hi)
      as (fr & _ & s & vs & Hc & Hlen & _).
    by apply (Hbad s s0).
  - exists e. by apply clean_data_raise in H as [-> _].
Qed.

Lemma clean_data_needs_equal_segments_witness :
  exists e, clean_data 0%nat (world_of [ragged]) = (Raise e, world_of [ragged]).
Proof.
  apply (clean_data_needs_equal_segments (world_of [ragged]) 0%nat ragged 2%nat
           [VInt 1; VStr "help"; VStr "related-1;offer-0"]
           [[VInt 2; VStr "ok"; VStr "related-x"]]
           [VInt 2; VStr "ok"; VStr "related-x"]);
    [reflexivity|reflexivity|reflexivity|by right; left|].
  intros s s0 [= <-] [= <-]. discriminate.
Defined.

(** The ids of the two files must be of one kind: when one [id] column
    holds texts and the other only numbers (and both tables have rows),
    the merge refuses and [load_data] raises [ValueError], with nothing
    changed. *)
Theorem load_data_id_kinds read_csv mp cp m c w lj rj :
  read_csv mp = Ok m ->
  read_csv cp = Ok c ->
  positions "id" (columns m) = [lj] ->
  positions "id" (columns c) = [rj] ->
  data m <> [] ->
  data c <> [] ->
  existsb is_str (ids m) <> existsb is_str (ids c) ->
  load_data read_csv mp cp w = (Raise ValueError, w).
Proof.
  intros Hm Hc Hlj Hrj Hme Hce Hkinds.
  rewrite load_data_run, Hm, Hc. unfold merge, key_position.
  rewrite Hlj, Hrj. cbn [mbind result_bind].
  rewrite (ids_column _ _ Hlj), (ids_column _ _ Hrj) in Hkinds.
  assert (keys_compatible (column lj (data m)) (column rj (data c)) = false)
    as ->; [|done].
  unfold keys_compatible.
  destruct (data m) as [|lr lrows]; [done|].
  destruct (data c) as [|rr rrows]; [done|].
  cbn [column map] in *.
  by destruct (existsb is_str _), (existsb is_str _).
Qed.

Lemma load_data_id_kinds_witness :
  load_data text_csv (rel "messages.csv") (rel "categories.csv") w0 =
  (Raise ValueError, w0).
Proof.
  apply (load_data_id_kinds text_csv (rel "messages.csv") (rel "categories.csv")
           messages_text_ids sample_categories w0 0%nat 0%nat);
    try reflexivity; discriminate.
Defined.
